(** * The address book of [main.py]: contacts, validated phones, the book

    A shallow embedding of the classes [Field], [Name], [Phone], [Record] and
    [AddressBook].  Python strings are sequences of code points, the objects
    of class [Record] live in a store addressed by references (the book keeps
    references, not copies), and a method that can raise runs in a monad of
    state and exceptions in which the state reached at the [raise] is kept. *)

From Stdlib Require Import NArith Ascii String List Lia.
From stdpp Require Import base numbers list option gmap strings.

(** ** The part of Python the module uses *)

Module Py.

(** [str]: a sequence of Unicode code points. *)
Abbreviation str := (list N).

(** A literal of the source text (all of them are ASCII). *)
Definition lit (s : string) : str :=
  (λ a, Ascii.N_of_ascii a) <$> String.list_ascii_of_string s.

(** The class [\d] of [re] on a [str] pattern is [Py_UNICODE_ISDECIMAL]: the
    characters of Unicode category Nd, not only [0-9].  The table (first code
    point and length of each run) is the one of Unicode 15, which CPython 3.12
    and 3.13 ship. *)
Definition decimal_runs : list (N * N) :=
  [ (0x0030, 10); (0x0660, 10); (0x06F0, 10); (0x07C0, 10); (0x0966, 10);
    (0x09E6, 10); (0x0A66, 10); (0x0AE6, 10); (0x0B66, 10); (0x0BE6, 10);
    (0x0C66, 10); (0x0CE6, 10); (0x0D66, 10); (0x0DE6, 10); (0x0E50, 10);
    (0x0ED0, 10); (0x0F20, 10); (0x1040, 10); (0x1090, 10); (0x17E0, 10);
    (0x1810, 10); (0x1946, 10); (0x19D0, 10); (0x1A80, 10); (0x1A90, 10);
    (0x1B50, 10); (0x1BB0, 10); (0x1C40, 10); (0x1C50, 10); (0xA620, 10);
    (0xA8D0, 10); (0xA900, 10); (0xA9D0, 10); (0xA9F0, 10); (0xAA50, 10);
    (0xABF0, 10); (0xFF10, 10); (0x104A0, 10); (0x10D30, 10); (0x11066, 10);
    (0x110F0, 10); (0x11136, 10); (0x111D0, 10); (0x112F0, 10); (0x11450, 10);
    (0x114D0, 10); (0x11650, 10); (0x116C0, 10); (0x11730, 10); (0x118E0, 10);
    (0x11950, 10); (0x11C50, 10); (0x11D50, 10); (0x11DA0, 10); (0x11F50, 10);
    (0x16A60, 10); (0x16AC0, 10); (0x16B50, 10); (0x1D7CE, 50); (0x1E140, 10);
    (0x1E2F0, 10); (0x1E4F0, 10); (0x1E950, 10); (0x1FBF0, 10) ]%N.

Definition in_run (c : N) (run : N * N) : bool :=
  ((run.1 <=? c) && (c <? run.1 + run.2))%N.

Definition class_d (c : N) : bool := existsb (in_run c) decimal_runs.

(** [\D]: every character that [\d] does not match. *)
Definition class_D (c : N) : bool := negb (class_d c).

(** [re.sub(pattern, repl, string)] for a pattern that is one character class
    and a replacement without escapes: the scan goes left to right, a matching
    character is replaced by [repl], any other one is copied. *)
Fixpoint re_sub_class (cls : N → bool) (repl string : str) : str :=
  match string with
  | [] => []
  | c :: rest =>
      if cls c then repl ++ re_sub_class cls repl rest
      else c :: re_sub_class cls repl rest
  end.

(** The line feed, ['\n'] in the source. *)
Definition newline : str := [10%N].

(** [s.startswith(prefix)]. *)
Fixpoint startswith (s prefix : str) {struct prefix} : bool :=
  match prefix, s with
  | [], _ => true
  | _ :: _, [] => false
  | c :: prefix', d :: s' => bool_decide (c = d) && startswith s' prefix'
  end.

(** [s[i:]] for an index [i >= 0]; past the end it is the empty sequence. *)
Definition slice_from {A} (i : nat) (s : list A) : list A := drop i s.

Definition len {A} (s : list A) : nat := length s.

(** [sep.join(parts)]. *)
Fixpoint join (sep : str) (parts : list str) : str :=
  match parts with
  | [] => []
  | [x] => x
  | x :: rest => x ++ sep ++ join sep rest
  end.

(** [[x for x in xs if cond(x)]]: a fresh list, appended to in iteration
    order. *)
Definition comprehension {A} (cond : A → bool) (xs : list A) : list A :=
  fold_left (λ acc x, if cond x then acc ++ [x] else acc) xs [].

(** [next((x for x in xs if cond(x)), None)]. *)
Fixpoint next_or_None {A} (cond : A → bool) (xs : list A) : option A :=
  match xs with
  | [] => None
  | x :: rest => if cond x then Some x else next_or_None cond rest
  end.

(** *** [dict]: keys in insertion order, each at most once *)

Abbreviation dict K V := (list (K * V)).

Section dict.
Context {K V : Type} `{EqDecision K}.
Implicit Types d : dict K V.

(** [d[k] = v]: an existing key keeps its place and gets the new value, a new
    key goes to the end. *)
Fixpoint setitem d (k : K) (v : V) : dict K V :=
  match d with
  | [] => [(k, v)]
  | (k', v') :: rest =>
      if decide (k' = k) then (k', v) :: rest else (k', v') :: setitem rest k v
  end.

(** [d.get(k, None)]. *)
Fixpoint get d (k : K) : option V :=
  match d with
  | [] => None
  | (k', v') :: rest => if decide (k' = k) then Some v' else get rest k
  end.

(** [d.pop(k, None)]: the value (or [None]) and the dict without the key. *)
Fixpoint pop d (k : K) : option V * dict K V :=
  match d with
  | [] => (None, [])
  | (k', v') :: rest =>
      if decide (k' = k) then (Some v', rest)
      else let '(r, rest') := pop rest k in (r, (k', v') :: rest')
  end.

(** [d.values()], [d.keys()]. *)
Definition values d : list V := snd <$> d.
Definition keys d : list K := fst <$> d.

(** What the interpreter guarantees of every [dict]. *)
Definition dict_wf d : Prop := NoDup (keys d).

End dict.

(** *** Exceptions and the store *)

Inductive exn : Type :=
  | ValueError (msg : str).

(** How a call ends.  [Dangling] is the model's own: a reference that names no
    object, which no Python execution holds. *)
Inductive outcome (A : Type) : Type :=
  | Return (a : A)
  | Raise (e : exn)
  | Dangling.
Arguments Return {A} a.
Arguments Raise {A} e.
Arguments Dangling {A}.

Definition ref := nat.

Section store.
Context {O : Type}.

(** A computation over a store of objects of type [O]. *)
Definition py (A : Type) : Type := gmap ref O → outcome A * gmap ref O.

Definition ret {A} (a : A) : py A := λ h, (Return a, h).

Definition bind {A B} (m : py A) (k : A → py B) : py B :=
  λ h, match m h with
       | (Return a, h') => k a h'
       | (Raise e, h') => (Raise e, h')
       | (Dangling, h') => (Dangling, h')
       end.

Definition raise {A} (e : exn) : py A := λ h, (Raise e, h).

(** Reading the object behind a reference; writing it back; a new object. *)
Definition load (l : ref) : py O :=
  λ h, match h !! l with
       | Some o => (Return o, h)
       | None => (Dangling, h)
       end.

Definition store (l : ref) (o : O) : py unit := λ h, (Return (), <[l := o]> h).

Definition alloc (o : O) : py ref :=
  λ h, let l := fresh (dom h) in (Return l, <[l := o]> h).

(** A loop [for x in xs: body(x)] whose body reads the store. *)
Fixpoint for_each {A B} (body : A → py B) (xs : list A) : py (list B) :=
  match xs with
  | [] => ret []
  | x :: rest =>
      bind (body x) (λ b, bind (for_each body rest) (λ bs, ret (b :: bs)))
  end.

End store.
Arguments py : clear implicits.

End Py.

Import Py.

#[global] Instance py_mret {O} : MRet (py O) := λ A, Py.ret.
#[global] Instance py_mbind {O} : MBind (py O) := λ A B k m, Py.bind m k.

(** ** The classes of the module *)

Module Field.

Record t : Type := mk { value : str }.

Definition __init__ (value : str) : t := mk value.

(** [str(self.value)], the value being a [str] already. *)
Definition __str__ (self : t) : str := value self.

End Field.

Module Name.

(** A subclass of [Field] that adds nothing. *)
Record t : Type := mk { super : Field.t }.

Definition __init__ (name : str) : t := mk (Field.__init__ name).

Definition value (self : t) : str := Field.value (super self).

End Name.

Module Phone.

Record t : Type := mk { super : Field.t }.

Definition value (self : t) : str := Field.value (super self).

(** The message of the [ValueError] that [__init__] raises. *)
Definition invalid_msg (phone : str) : str :=
  lit "Phone number " ++ phone ++ lit " is invalid".

Definition __init__ {O} (phone : str) : py O t :=
  let phone := re_sub_class class_D [] phone in
  let phone := if startswith phone (lit "38") then slice_from 2 phone else phone in
  if bool_decide (len phone ≠ 10) then raise (ValueError (invalid_msg phone))
  else mret (mk (Field.__init__ phone)).

End Phone.

Module Record.

Record t : Type := mk { name : Name.t; phones : list Phone.t }.

(** The message of the [ValueError] that [edit_phone] raises. *)
Definition not_found_msg (old_phone : str) : str :=
  lit "Phone number " ++ old_phone ++ lit " not found.".

Definition __init__ (name : str) : py t ref :=
  alloc (mk (Name.__init__ name) []).

Definition add_phone (self : ref) (phone : str) : py t unit :=
  r ← load self;
  p ← Phone.__init__ phone;
  store self (mk (name r) (phones r ++ [p])).

Definition remove_phone (self : ref) (phone : str) : py t unit :=
  r ← load self;
  store self
    (mk (name r)
       (comprehension (λ p, bool_decide (Phone.value p ≠ phone)) (phones r))).

(** The loop of [edit_phone] over the phones still to visit: at the first
    phone equal to [old_phone] the local variable [p] is bound to a new
    [Phone] and the method returns; the list is never assigned to. *)
Fixpoint edit_phone_loop (ps : list Phone.t) (old_phone new_phone : str)
  : py t unit :=
  match ps with
  | [] => raise (ValueError (not_found_msg old_phone))
  | p :: rest =>
      if bool_decide (Phone.value p = old_phone) then
        p' ← Phone.__init__ new_phone;
        mret ()
      else edit_phone_loop rest old_phone new_phone
  end.

Definition edit_phone (self : ref) (old_phone new_phone : str) : py t unit :=
  r ← load self;
  edit_phone_loop (phones r) old_phone new_phone.

Definition find_phone (self : ref) (phone : str) : py t (option Phone.t) :=
  r ← load self;
  mret (next_or_None (λ p, bool_decide (Phone.value p = phone)) (phones r)).

(** The rendering of an object, and of the object behind a reference. *)
Definition render (r : t) : str :=
  lit "Contact name: " ++ Name.value (name r) ++ lit ", phones: "
  ++ join (lit "; ") (Phone.value <$> phones r).

Definition __str__ (self : ref) : py t str :=
  r ← load self;
  mret (render r).

End Record.

Module AddressBook.

(** A [UserDict]: the entries are in [data], from names to references to
    [Record] objects. *)
Record t : Type := mk { data : dict str ref }.

Definition __init__ : t := mk [].

Definition add_record (self : t) (record : ref) : py Record.t t :=
  r ← load record;
  mret (mk (setitem (data self) (Name.value (Record.name r)) record)).

Definition find (self : t) (name : str) : option ref := get (data self) name.

Definition delete (self : t) (name : str) : t := mk (pop (data self) name).2.

Definition __str__ (self : t) : py Record.t str :=
  lines ← for_each Record.__str__ (values (data self));
  mret (join newline lines).

End AddressBook.

(** ** The vocabulary of the specification *)

(** The store of the [Record] objects. *)
Abbreviation heap := (gmap ref Record.t).

(** The two error conditions, both a [ValueError] in the source, told apart
    by their messages. *)
Definition InvalidPhoneNumber (digits : str) : exn :=
  ValueError (Phone.invalid_msg digits).

Definition PhoneNotFound (old_phone : str) : exn :=
  ValueError (Record.not_found_msg old_phone).

(** Normalization in the words of the specification: keep the digits in their
    order, then drop a leading ["38"]. *)
Definition spec_digits (raw : str) : str := filter (λ c, class_d c) raw.

Definition spec_strip_38 (digits : str) : str :=
  match digits with
  | c :: d :: rest => if decide (c = 51%N ∧ d = 56%N) then rest else digits
  | _ => digits
  end.

Definition spec_normalize (raw : str) : str := spec_strip_38 (spec_digits raw).

Definition phone_of (digits : str) : Phone.t := Phone.mk (Field.mk digits).

(** Ten digits of the class [\d]; ten digits among [0-9]. *)
Definition ten_digits (s : str) : Prop :=
  length s = 10 ∧ Forall (λ c, class_d c) s.

Definition ascii_digit (c : N) : Prop := (48 ≤ c ≤ 57)%N.

Definition ten_ascii_digits (s : str) : Prop :=
  length s = 10 ∧ Forall ascii_digit s.

(** Every phone of every live record satisfies [P]. *)
Definition phones_all (P : str → Prop) (h : heap) : Prop :=
  map_Forall (λ _ r, Forall (λ p, P (Phone.value p)) (Record.phones r)) h.

(** What the operations keep true of a book: its keys are distinct, and each
    entry refers to a live record stored under its own name. *)
Definition entry_ok (h : heap) (kv : str * ref) : Prop :=
  (λ r, Name.value (Record.name r)) <$> h !! kv.2 = Some kv.1.

Definition book_ok (h : heap) (b : AddressBook.t) : Prop :=
  dict_wf (AddressBook.data b) ∧ Forall (entry_ok h) (AddressBook.data b).

(** The invariant of the pair of a store and a book. *)
Definition book_inv (h : heap) (b : AddressBook.t) : Prop :=
  phones_all ten_digits h ∧ book_ok h b.

#[global] Instance ten_digits_dec (s : str) : Decision (ten_digits s).
Proof. unfold ten_digits. apply _. Defined.

#[global] Instance ascii_digit_dec (c : N) : Decision (ascii_digit c).
Proof. unfold ascii_digit. apply _. Defined.

#[global] Instance ten_ascii_digits_dec (s : str) : Decision (ten_ascii_digits s).
Proof. unfold ten_ascii_digits. apply _. Defined.

#[global] Instance phones_all_dec (P : str → Prop) `{∀ s, Decision (P s)} (h : heap) :
  Decision (phones_all P h).
Proof. unfold phones_all. apply _. Defined.

#[global] Instance book_ok_dec (h : heap) (b : AddressBook.t) : Decision (book_ok h b).
Proof. unfold book_ok, dict_wf, entry_ok. apply _. Defined.

#[global] Instance book_inv_dec (h : heap) (b : AddressBook.t) : Decision (book_inv h b).
Proof. unfold book_inv. apply _. Defined.

(** The line of the rendering of a book that comes from one reference. *)
Definition line_of (h : heap) (l : ref) : str :=
  from_option Record.render [] (h !! l).

(** The entries of a dict under another key than [k], in their order. *)
Definition others {K V} `{EqDecision K} (k : K) (d : dict K V) : dict K V :=
  filter (λ kv, kv.1 ≠ k) d.

(** The state the script at the end of the source reaches before its first
    [print]: John with two phones and Jane with one, both in the book. *)
Definition john : Record.t :=
  Record.mk (Name.__init__ (lit "John"))
    [phone_of (lit "1234567890"); phone_of (lit "5555555555")].

Definition jane : Record.t :=
  Record.mk (Name.__init__ (lit "Jane")) [phone_of (lit "9876543210")].

Definition demo_heap : heap := <[1 := jane]> (<[0 := john]> ∅).

Definition demo_book : AddressBook.t :=
  AddressBook.mk [(lit "John", 0); (lit "Jane", 1)].

Definition demo_script : py Record.t AddressBook.t :=
  let book := AddressBook.__init__ in
  john_record ← Record.__init__ (lit "John");
  _ ← Record.add_phone john_record (lit "+38123456-7890");
  _ ← Record.add_phone john_record (lit "5555555555");
  book ← AddressBook.add_record book john_record;
  jane_record ← Record.__init__ (lit "Jane");
  _ ← Record.add_phone jane_record (lit "9876543210");
  AddressBook.add_record book jane_record.

(** Ten ARABIC-INDIC digits, U+0660 to U+0669. *)
Definition arabic_indic_digits : str :=
  [0x660; 0x661; 0x662; 0x663; 0x664; 0x665; 0x666; 0x667; 0x668; 0x669]%N.

(** Unfolding one step of a computation. *)
Ltac py_unfold :=
  unfold mbind, mret, py_mbind, py_mret, Py.bind, Py.ret, load, store, raise, alloc.

(** ** Python primitives *)

Lemma re_sub_class_D_filter (s : str) :
  re_sub_class class_D [] s = spec_digits s.
Proof.
  unfold spec_digits.
  induction s as [|c s IH]; [reflexivity|].
  cbn [re_sub_class]. unfold class_D at 1.
  rewrite filter_cons. destruct (class_d c) eqn:E; cbn.
  - rewrite IH. destruct (decide (Is_true true)) as [|n]; [reflexivity|].
    exfalso. apply n. exact I.
  - rewrite IH. destruct (decide (Is_true false)) as [f|]; [destruct f|reflexivity].
Qed.

Lemma startswith_38 (s : str) :
  (if startswith s (lit "38") then slice_from 2 s else s) = spec_strip_38 s.
Proof.
  change (lit "38") with [51%N; 56%N].
  destruct s as [|c [|d s]]; cbn -[bool_decide].
  - reflexivity.
  - rewrite andb_false_r. reflexivity.
  - destruct (decide (c = 51%N ∧ d = 56%N)) as [[-> ->]|Hn]; [reflexivity|].
    destruct (bool_decide_reflect (51%N = c)) as [Hc|Hc];
      destruct (bool_decide_reflect (56%N = d)) as [Hd|Hd]; cbn; try reflexivity.
    exfalso. apply Hn. split; congruence.
Qed.

Lemma comprehension_filter {A} (cond : A → bool) (xs : list A) :
  comprehension cond xs = filter (λ x, cond x) xs.
Proof.
  unfold comprehension.
  enough (G : ∀ acc, fold_left (λ acc x, if cond x then acc ++ [x] else acc) xs acc
                     = acc ++ filter (λ x, cond x) xs) by apply (G []).
  induction xs as [|x xs IH]; intros acc; cbn [fold_left].
  - rewrite filter_nil, app_nil_r. reflexivity.
  - rewrite IH, filter_cons. destruct (cond x); cbn.
    + destruct (decide (Is_true true)) as [|n]; [|exfalso; apply n; exact I].
      rewrite <- app_assoc. reflexivity.
    + destruct (decide (Is_true false)) as [f|]; [destruct f|reflexivity].
Qed.

Lemma next_or_None_Some {A} (cond : A → bool) (xs : list A) (x : A) :
  next_or_None cond xs = Some x →
  ∃ before after, xs = before ++ x :: after ∧ cond x = true
                  ∧ Forall (λ y, cond y = false) before.
Proof.
  induction xs as [|y xs IH]; cbn; [discriminate|].
  destruct (cond y) eqn:E.
  - intros [= ->]. exists [], xs. repeat split; [assumption|constructor].
  - intros Hx. destruct (IH Hx) as (before & after & -> & Hc & Hb).
    exists (y :: before), after. repeat split; [assumption|].
    constructor; assumption.
Qed.

Lemma next_or_None_None {A} (cond : A → bool) (xs : list A) :
  next_or_None cond xs = None ↔ Forall (λ y, cond y = false) xs.
Proof.
  induction xs as [|y xs IH]; cbn.
  - split; [constructor|reflexivity].
  - destruct (cond y) eqn:E.
    + split; [discriminate|]. intros H. inversion H; congruence.
    + rewrite IH. split; [constructor; assumption|].
      intros H. inversion H; assumption.
Qed.

Section dict_facts.
Context {K V : Type} `{EqDecision K}.
Implicit Types (d : dict K V) (k : K) (v : V).

Lemma get_setitem_eq d k v : get (setitem d k v) k = Some v.
Proof.
  induction d as [|[k' v'] d IH]; cbn.
  - destruct (decide (k = k)); congruence.
  - destruct (decide (k' = k)) as [->|Hne]; cbn.
    + destruct (decide (k = k)); congruence.
    + destruct (decide (k' = k)); [contradiction|assumption].
Qed.

Lemma get_setitem_ne d k k0 v : k ≠ k0 → get (setitem d k v) k0 = get d k0.
Proof.
  intros Hne. induction d as [|[k' v'] d IH]; cbn.
  - destruct (decide (k = k0)); [contradiction|reflexivity].
  - destruct (decide (k' = k)) as [->|Hk]; cbn.
    + destruct (decide (k = k0)); [contradiction|reflexivity].
    + destruct (decide (k' = k0)); [reflexivity|assumption].
Qed.

Lemma get_None d k : get d k = None ↔ k ∉ keys d.
Proof.
  induction d as [|[k' v'] d IH]; cbn.
  - split; [intros _; apply not_elem_of_nil|reflexivity].
  - rewrite not_elem_of_cons. destruct (decide (k' = k)) as [->|Hk].
    + split; [discriminate|]. intros [Hk _]. contradiction.
    + rewrite IH. unfold keys. split; [intros Hd; split; congruence|intros [_ Hd]; exact Hd].
Qed.

Lemma get_Some_elem_of d k v : get d k = Some v → (k, v) ∈ d.
Proof.
  induction d as [|[k' v'] d IH]; cbn; [discriminate|].
  destruct (decide (k' = k)) as [->|Hk].
  - intros [= ->]. apply elem_of_cons. left. reflexivity.
  - intros Hg. apply elem_of_cons. right. apply IH, Hg.
Qed.

Lemma elem_of_get d k v : dict_wf d → (k, v) ∈ d → get d k = Some v.
Proof.
  unfold dict_wf, keys.
  induction d as [|[k' v'] d IH]; cbn; intros Hwf Hin.
  - apply elem_of_nil in Hin. contradiction.
  - apply NoDup_cons in Hwf as [Hk' Hwf].
    apply elem_of_cons in Hin as [[= -> ->]|Hin].
    + destruct (decide (k' = k')); congruence.
    + destruct (decide (k' = k)) as [->|Hk]; [|apply IH; assumption].
      exfalso. apply Hk'. apply (list_elem_of_fmap_2 fst) in Hin. exact Hin.
Qed.

Lemma keys_setitem_present d k v : k ∈ keys d → keys (setitem d k v) = keys d.
Proof.
  unfold keys. induction d as [|[k' v'] d IH]; cbn; intros Hin.
  - apply elem_of_nil in Hin. contradiction.
  - destruct (decide (k' = k)) as [->|Hk]; cbn; [reflexivity|].
    apply elem_of_cons in Hin as [->|Hin]; [contradiction|].
    rewrite IH by assumption. reflexivity.
Qed.

Lemma setitem_absent d k v : k ∉ keys d → setitem d k v = d ++ [(k, v)].
Proof.
  unfold keys. induction d as [|[k' v'] d IH]; cbn; intros Hin; [reflexivity|].
  apply not_elem_of_cons in Hin as [Hk Hin].
  destruct (decide (k' = k)); [congruence|]. rewrite IH by assumption. reflexivity.
Qed.

Lemma dict_wf_setitem d k v : dict_wf d → dict_wf (setitem d k v).
Proof.
  intros Hwf. unfold dict_wf. destruct (decide (k ∈ keys d)) as [Hin|Hout].
  - rewrite keys_setitem_present by assumption. exact Hwf.
  - rewrite setitem_absent by assumption. unfold keys. rewrite fmap_app.
    apply NoDup_app. split; [exact Hwf|]. split.
    + intros x Hx Hx'. cbn in Hx'. apply list_elem_of_singleton in Hx'. subst x.
      apply Hout, Hx.
    + cbn. apply NoDup_singleton.
Qed.

Lemma elem_of_setitem d k v k0 v0 :
  dict_wf d →
  (k0, v0) ∈ setitem d k v → (k0 = k ∧ v0 = v) ∨ (k0 ≠ k ∧ (k0, v0) ∈ d).
Proof.
  intros Hwf Hin. apply elem_of_get in Hin; [|apply dict_wf_setitem, Hwf].
  destruct (decide (k0 = k)) as [->|Hk].
  - rewrite get_setitem_eq in Hin. left. split; congruence.
  - rewrite get_setitem_ne in Hin by congruence.
    right. split; [assumption|]. apply get_Some_elem_of, Hin.
Qed.

Lemma pop_fst d k : (pop d k).1 = get d k.
Proof.
  induction d as [|[k' v'] d IH]; cbn; [reflexivity|].
  destruct (decide (k' = k)); [reflexivity|].
  destruct (pop d k) as [o d']. exact IH.
Qed.

Lemma others_absent d k : k ∉ keys d → others k d = d.
Proof.
  unfold others, keys. induction d as [|[k' v'] d IH]; intros Hout; [reflexivity|].
  cbn in Hout. apply not_elem_of_cons in Hout as [Hk Hout].
  rewrite filter_cons. cbn [fst]. destruct (decide (k' ≠ k)) as [_|Hn].
  - rewrite IH by assumption. reflexivity.
  - exfalso. apply Hn. congruence.
Qed.

Lemma pop_others d k : dict_wf d → (pop d k).2 = others k d.
Proof.
  unfold dict_wf, keys, others.
  induction d as [|[k' v'] d IH]; intros Hwf; [reflexivity|].
  cbn in Hwf. apply NoDup_cons in Hwf as [Hk' Hwf].
  rewrite filter_cons. cbn [fst pop].
  destruct (decide (k' = k)) as [->|Hk].
  - destruct (decide (k ≠ k)) as [Hn|_]; [congruence|]. cbn [snd].
    symmetry. apply others_absent, Hk'.
  - destruct (decide (k' ≠ k)) as [_|Hn]; [|contradiction].
    specialize (IH Hwf). destruct (pop d k) as [o d']. cbn [snd] in *. congruence.
Qed.

Lemma pop_absent d k : k ∉ keys d → (pop d k).2 = d.
Proof.
  unfold keys. induction d as [|[k' v'] d IH]; cbn; intros Hout; [reflexivity|].
  apply not_elem_of_cons in Hout as [Hk Hout].
  destruct (decide (k' = k)); [congruence|].
  specialize (IH Hout). destruct (pop d k) as [o d']. cbn in *. congruence.
Qed.

Lemma elem_of_others d k k0 v0 : (k0, v0) ∈ others k d ↔ k0 ≠ k ∧ (k0, v0) ∈ d.
Proof.
  unfold others. rewrite list_elem_of_filter. cbn. reflexivity.
Qed.

Lemma get_others_eq d k : get (others k d) k = None.
Proof.
  apply get_None. unfold keys. intros Hin.
  apply list_elem_of_fmap in Hin as ([k0 v0] & Hk & Hin). cbn in Hk. subst k0.
  apply elem_of_others in Hin as [Hne _]. congruence.
Qed.

Lemma get_others_ne d k k0 : k0 ≠ k → get (others k d) k0 = get d k0.
Proof.
  intros Hne. unfold others. induction d as [|[k' v'] d IH]; [reflexivity|].
  rewrite filter_cons. cbn [fst]. destruct (decide (k' ≠ k)) as [Hk|Hk]; cbn [get].
  - destruct (decide (k' = k0)); [reflexivity|exact IH].
  - destruct (decide (k' = k0)); [|exact IH]. exfalso. apply Hk. congruence.
Qed.

Lemma dict_wf_others d k : dict_wf d → dict_wf (others k d).
Proof.
  unfold dict_wf, keys, others. intros Hwf.
  eapply sublist_NoDup; [exact Hwf|].
  apply fmap_sublist, sublist_filter.
Qed.

End dict_facts.

(** ** The methods, one equation each *)

Lemma Phone_init_eq {O} (raw : str) (h : gmap ref O) :
  Phone.__init__ raw h =
  (if decide (length (spec_normalize raw) = 10)
   then Return (phone_of (spec_normalize raw))
   else Raise (InvalidPhoneNumber (spec_normalize raw)), h).
Proof.
  unfold Phone.__init__. rewrite re_sub_class_D_filter, startswith_38.
  fold (spec_normalize raw). unfold len.
  destruct (decide (length (spec_normalize raw) = 10)) as [E|E].
  - rewrite bool_decide_eq_false_2 by (intros Hn; apply Hn, E). reflexivity.
  - rewrite bool_decide_eq_true_2 by exact E. reflexivity.
Qed.

Lemma spec_digits_Forall (raw : str) : Forall (λ c, class_d c) (spec_digits raw).
Proof.
  apply Forall_forall. intros c Hc. unfold spec_digits in Hc.
  apply list_elem_of_filter in Hc as [Hc _]. exact Hc.
Qed.

Lemma spec_strip_38_Forall (P : N → Prop) (s : str) :
  Forall P s → Forall P (spec_strip_38 s).
Proof.
  intros H. destruct s as [|c [|d s]]; cbn; try assumption.
  destruct (decide _); [|assumption].
  inversion H as [|? ? _ H1]. inversion H1. assumption.
Qed.

Lemma spec_normalize_Forall (raw : str) :
  Forall (λ c, class_d c) (spec_normalize raw).
Proof. apply spec_strip_38_Forall, spec_digits_Forall. Qed.

Section Record_facts.
Variables (h : heap) (self : ref) (r : Record.t).
Hypothesis Hlive : h !! self = Some r.

Lemma add_phone_eq (raw : str) :
  Record.add_phone self raw h =
  if decide (length (spec_normalize raw) = 10)
  then (Return (),
        <[self := Record.mk (Record.name r)
                    (Record.phones r ++ [phone_of (spec_normalize raw)])]> h)
  else (Raise (InvalidPhoneNumber (spec_normalize raw)), h).
Proof.
  unfold Record.add_phone. py_unfold. rewrite Hlive, Phone_init_eq.
  destruct (decide _); reflexivity.
Qed.

Lemma remove_phone_eq (v : str) :
  Record.remove_phone self v h =
  (Return (),
   <[self := Record.mk (Record.name r)
               (filter (λ p, Phone.value p ≠ v) (Record.phones r))]> h).
Proof.
  unfold Record.remove_phone. py_unfold. rewrite Hlive, comprehension_filter.
  do 3 f_equal. apply list_filter_iff. intros p.
  rewrite bool_decide_spec. reflexivity.
Qed.

Lemma find_phone_eq (v : str) :
  Record.find_phone self v h =
  (Return (next_or_None (λ p, bool_decide (Phone.value p = v)) (Record.phones r)), h).
Proof. unfold Record.find_phone. py_unfold. rewrite Hlive. reflexivity. Qed.

Lemma edit_phone_eq (old new : str) :
  Record.edit_phone self old new h =
  Record.edit_phone_loop (Record.phones r) old new h.
Proof. unfold Record.edit_phone. py_unfold. rewrite Hlive. reflexivity. Qed.

Lemma Record_str_eq : Record.__str__ self h = (Return (Record.render r), h).
Proof. unfold Record.__str__. py_unfold. rewrite Hlive. reflexivity. Qed.

End Record_facts.

Lemma edit_phone_loop_absent (ps : list Phone.t) (old new : str) (h : heap) :
  Forall (λ p, Phone.value p ≠ old) ps →
  Record.edit_phone_loop ps old new h = (Raise (PhoneNotFound old), h).
Proof.
  induction 1 as [|p ps Hp _ IH]; cbn -[bool_decide]; [reflexivity|].
  rewrite bool_decide_eq_false_2 by exact Hp. exact IH.
Qed.

Lemma edit_phone_loop_present (ps : list Phone.t) (old new : str) (h : heap) :
  Exists (λ p, Phone.value p = old) ps →
  Record.edit_phone_loop ps old new h =
  (if decide (length (spec_normalize new) = 10) then Return ()
   else Raise (InvalidPhoneNumber (spec_normalize new)), h).
Proof.
  induction ps as [|p ps IH]; intros Hex; [inversion Hex|].
  cbn -[bool_decide]. destruct (bool_decide_reflect (Phone.value p = old)) as [E|E].
  - py_unfold. rewrite Phone_init_eq. destruct (decide _); reflexivity.
  - apply IH. inversion Hex; [contradiction|assumption].
Qed.

Lemma edit_phone_loop_heap (ps : list Phone.t) (old new : str) (h : heap) :
  (Record.edit_phone_loop ps old new h).2 = h.
Proof.
  destruct (decide (Exists (λ p, Phone.value p = old) ps)) as [Hex|Hno].
  - rewrite edit_phone_loop_present by exact Hex. reflexivity.
  - rewrite edit_phone_loop_absent; [reflexivity|].
    apply Forall_forall. intros p Hp E. apply Hno, Exists_exists.
    exists p. split; assumption.
Qed.

Lemma edit_phone_heap (self : ref) (old new : str) (h : heap) :
  (Record.edit_phone self old new h).2 = h.
Proof.
  destruct (h !! self) as [r|] eqn:E.
  - rewrite (edit_phone_eq h self r E). apply edit_phone_loop_heap.
  - unfold Record.edit_phone. py_unfold. rewrite E. reflexivity.
Qed.

(** The two messages end differently, so the two conditions never coincide. *)
Lemma not_found_is_not_invalid (old digits : str) :
  PhoneNotFound old ≠ InvalidPhoneNumber digits.
Proof.
  unfold PhoneNotFound, InvalidPhoneNumber, Record.not_found_msg, Phone.invalid_msg.
  intros [= E].
  apply (f_equal (@rev N)) in E. rewrite !rev_app_distr in E.
  cbn in E. discriminate E.
Qed.

(** ** The book and the store *)

Lemma add_record_eq (b : AddressBook.t) (record : ref) (r : Record.t) (h : heap) :
  h !! record = Some r →
  AddressBook.add_record b record h =
  (Return (AddressBook.mk
             (setitem (AddressBook.data b) (Name.value (Record.name r)) record)), h).
Proof.
  intros Hlive. unfold AddressBook.add_record. py_unfold. rewrite Hlive. reflexivity.
Qed.

Lemma add_record_heap (b : AddressBook.t) (record : ref) (h : heap) :
  (AddressBook.add_record b record h).2 = h.
Proof.
  unfold AddressBook.add_record. py_unfold. destruct (h !! record); reflexivity.
Qed.

Lemma for_each_str (h : heap) (ls : list ref) :
  Forall (λ l, is_Some (h !! l)) ls →
  for_each Record.__str__ ls h = (Return (line_of h <$> ls), h).
Proof.
  induction 1 as [|l ls [r Hr] _ IH]; [reflexivity|].
  cbn [for_each]. unfold Py.bind at 1. rewrite (Record_str_eq h l r Hr).
  unfold Py.bind at 1. rewrite IH. unfold Py.ret. cbn [fmap list_fmap].
  unfold line_of at 2. rewrite Hr. reflexivity.
Qed.

Lemma entry_ok_live (h : heap) (kv : str * ref) :
  entry_ok h kv → ∃ r, h !! kv.2 = Some r ∧ Name.value (Record.name r) = kv.1.
Proof.
  unfold entry_ok. destruct (h !! kv.2) as [r|]; cbn; [|discriminate].
  intros [= E]. exists r. split; [reflexivity|exact E].
Qed.

Lemma book_str_eq (h : heap) (b : AddressBook.t) :
  book_ok h b →
  AddressBook.__str__ b h =
  (Return (join newline (line_of h <$> values (AddressBook.data b))), h).
Proof.
  intros [_ Hen]. unfold AddressBook.__str__. py_unfold.
  rewrite for_each_str; [reflexivity|].
  unfold values. apply Forall_fmap. eapply Forall_impl; [exact Hen|].
  intros kv Hkv. destruct (entry_ok_live h kv Hkv) as (r & Hr & _).
  cbn. rewrite Hr. eexists. reflexivity.
Qed.

Lemma book_ok_empty (h : heap) : book_ok h AddressBook.__init__.
Proof. split; [apply NoDup_nil_2|constructor]. Qed.

Lemma book_ok_update (h : heap) (b : AddressBook.t) (l : ref) (r r' : Record.t) :
  book_ok h b → h !! l = Some r →
  Name.value (Record.name r') = Name.value (Record.name r) →
  book_ok (<[l := r']> h) b.
Proof.
  intros [Hwf Hen] Hl Hname. split; [exact Hwf|].
  eapply Forall_impl; [exact Hen|]. intros [k l0] Hkv. unfold entry_ok in *. cbn in *.
  destruct (decide (l = l0)) as [<-|Hne].
  - rewrite lookup_insert_eq. rewrite Hl in Hkv. cbn in *. congruence.
  - rewrite lookup_insert_ne by exact Hne. exact Hkv.
Qed.

Lemma book_ok_fresh (h : heap) (b : AddressBook.t) (l : ref) (r : Record.t) :
  book_ok h b → h !! l = None → book_ok (<[l := r]> h) b.
Proof.
  intros [Hwf Hen] Hl. split; [exact Hwf|].
  eapply Forall_impl; [exact Hen|]. intros [k l0] Hkv. unfold entry_ok in *. cbn in *.
  destruct (decide (l = l0)) as [<-|Hne].
  - rewrite Hl in Hkv. discriminate Hkv.
  - rewrite lookup_insert_ne by exact Hne. exact Hkv.
Qed.

Lemma book_ok_setitem (h : heap) (b : AddressBook.t) (l : ref) (r : Record.t) :
  book_ok h b → h !! l = Some r →
  book_ok h (AddressBook.mk
               (setitem (AddressBook.data b) (Name.value (Record.name r)) l)).
Proof.
  intros [Hwf Hen] Hl. split; cbn.
  - apply dict_wf_setitem, Hwf.
  - apply Forall_forall. intros [k l0] Hin.
    apply (elem_of_setitem _ _ _ _ _ Hwf) in Hin as [[-> ->]|[_ Hin]].
    + unfold entry_ok. cbn. rewrite Hl. reflexivity.
    + rewrite Forall_forall in Hen. apply Hen, Hin.
Qed.

Lemma delete_eq (b : AddressBook.t) (name : str) :
  dict_wf (AddressBook.data b) →
  AddressBook.delete b name = AddressBook.mk (others name (AddressBook.data b)).
Proof. intros Hwf. unfold AddressBook.delete. rewrite pop_others by exact Hwf. reflexivity. Qed.

Lemma book_ok_delete (h : heap) (b : AddressBook.t) (name : str) :
  book_ok h b → book_ok h (AddressBook.delete b name).
Proof.
  intros [Hwf Hen]. rewrite delete_eq by exact Hwf. split; cbn.
  - apply dict_wf_others, Hwf.
  - unfold others. apply Forall_forall. intros kv Hin.
    apply list_elem_of_filter in Hin as [_ Hin].
    rewrite Forall_forall in Hen. apply Hen, Hin.
Qed.

Lemma phones_all_insert (P : str → Prop) (h : heap) (l : ref) (r : Record.t) :
  phones_all P h → Forall (λ p, P (Phone.value p)) (Record.phones r) →
  phones_all P (<[l := r]> h).
Proof. intros Hh Hr. apply map_Forall_insert_2; assumption. Qed.

Lemma demo_script_state : demo_script ∅ = (Return demo_book, demo_heap).
Proof. vm_compute. reflexivity. Qed.

Example demo_book_rendering :
  AddressBook.__str__ demo_book demo_heap
  = (Return (lit "Contact name: John, phones: 1234567890; 5555555555" ++ newline
             ++ lit "Contact name: Jane, phones: 9876543210"), demo_heap).
Proof. reflexivity. Qed.

Example demo_book_rendering_after_delete :
  AddressBook.__str__ (AddressBook.delete demo_book (lit "Jane")) demo_heap
  = (Return (lit "Contact name: John, phones: 1234567890; 5555555555"), demo_heap).
Proof. reflexivity. Qed.

Example Phone_of_ten_plain_digits (h : heap) :
  Phone.__init__ (lit "5555555555") h = (Return (phone_of (lit "5555555555")), h).
Proof. rewrite Phone_init_eq. reflexivity. Qed.

Example Phone_without_digits (h : heap) :
  Phone.__init__ (lit "+-() ") h = (Raise (InvalidPhoneNumber []), h).
Proof. rewrite Phone_init_eq. reflexivity. Qed.

(** ** Phone construction *)

(** C1: for every raw string, [Phone.__init__] keeps the digits in their order,
    drops a leading ["38"] whatever the length that is left, and returns a
    [Phone] holding the result exactly when its length is 10, raising
    [InvalidPhoneNumber] with it otherwise; ["3812345678"] is rejected (eight
    digits are left) and ["+38123456-7890"] gives ["1234567890"]. *)
Theorem Phone_construction_normalizes (raw : str) (h : heap) :
  Phone.__init__ raw h =
    (if decide (length (spec_normalize raw) = 10)
     then Return (phone_of (spec_normalize raw))
     else Raise (InvalidPhoneNumber (spec_normalize raw)), h)
  ∧ Phone.__init__ (lit "3812345678") h =
      (Raise (InvalidPhoneNumber (lit "12345678")), h)
  ∧ Phone.__init__ (lit "+38123456-7890") h =
      (Return (phone_of (lit "1234567890")), h).
Proof.
  split; [apply Phone_init_eq|].
  split; rewrite Phone_init_eq; reflexivity.
Qed.

(** ** Editing a phone *)

(** C2: on John's record of the script, [edit_phone("1234567890",
    "1112223333")] returns normally and leaves the store as it was, the new
    [Phone] being bound to the loop variable only; [find_phone("1112223333")]
    then finds nothing and the old number is still the first phone. *)
Theorem edit_phone_discards_replacement :
  Record.edit_phone 0 (lit "1234567890") (lit "1112223333") demo_heap
    = (Return (), demo_heap)
  ∧ Record.find_phone 0 (lit "1112223333") demo_heap = (Return None, demo_heap)
  ∧ Record.find_phone 0 (lit "1234567890") demo_heap
    = (Return (Some (phone_of (lit "1234567890"))), demo_heap).
Proof.
  assert (Hjohn : demo_heap !! 0 = Some john) by reflexivity.
  rewrite (edit_phone_eq _ _ _ Hjohn), !(find_phone_eq _ _ _ Hjohn).
  repeat split; reflexivity.
Qed.

(** C3: when no phone of the record equals [old], [edit_phone(old, new)]
    raises [PhoneNotFound] for every [new], valid or not, and the store is
    the one before the call; that condition is never an
    [InvalidPhoneNumber]. *)
Theorem edit_phone_absent_raises_not_found
  (h : heap) (self : ref) (r : Record.t) (old new : str)
  (Hlive : h !! self = Some r)
  (Habsent : Forall (λ p, Phone.value p ≠ old) (Record.phones r)) :
  Record.edit_phone self old new h = (Raise (PhoneNotFound old), h)
  ∧ ∀ digits, PhoneNotFound old ≠ InvalidPhoneNumber digits.
Proof.
  split.
  - rewrite (edit_phone_eq _ _ _ Hlive). apply edit_phone_loop_absent, Habsent.
  - intros digits. apply not_found_is_not_invalid.
Qed.

Lemma edit_phone_absent_raises_not_found_witness :
  (demo_heap !! 0 = Some john
   ∧ Forall (λ p, Phone.value p ≠ lit "0000000000") (Record.phones john))
  ∧ (Record.edit_phone 0 (lit "0000000000") (lit "not a number") demo_heap
       = (Raise (PhoneNotFound (lit "0000000000")), demo_heap)
     ∧ ∀ digits, PhoneNotFound (lit "0000000000") ≠ InvalidPhoneNumber digits).
Proof.
  assert (H1 : demo_heap !! 0 = Some john) by reflexivity.
  assert (H2 : Forall (λ p, Phone.value p ≠ lit "0000000000") (Record.phones john))
    by (repeat constructor; discriminate).
  split; [split; [exact H1|exact H2]|].
  exact (edit_phone_absent_raises_not_found demo_heap 0 john
           (lit "0000000000") (lit "not a number") H1 H2).
Defined.

(** ** Removing a phone *)

(** C4: [remove_phone(v)] returns normally; the record then holds exactly the
    phones whose value differs from [v], in their former order, and when no
    phone equals [v] the store is unchanged. *)
Theorem remove_phone_removes_all
  (h : heap) (self : ref) (r : Record.t) (v : str)
  (Hlive : h !! self = Some r) :
  ∃ kept,
    Record.remove_phone self v h
      = (Return (), <[self := Record.mk (Record.name r) kept]> h)
    ∧ kept = filter (λ p, Phone.value p ≠ v) (Record.phones r)
    ∧ kept `sublist_of` Record.phones r
    ∧ (∀ p, p ∈ kept ↔ p ∈ Record.phones r ∧ Phone.value p ≠ v)
    ∧ (Forall (λ p, Phone.value p ≠ v) (Record.phones r) →
       kept = Record.phones r
       ∧ <[self := Record.mk (Record.name r) kept]> h = h).
Proof.
  exists (filter (λ p, Phone.value p ≠ v) (Record.phones r)).
  split; [apply remove_phone_eq, Hlive|].
  split; [reflexivity|].
  split; [apply sublist_filter|].
  split.
  - intros p. rewrite list_elem_of_filter. tauto.
  - intros Hall.
    assert (E : filter (λ p, Phone.value p ≠ v) (Record.phones r) = Record.phones r).
    { clear Hlive. induction Hall as [|p ps Hp _ IH]; [reflexivity|].
      rewrite filter_cons_True by exact Hp. rewrite IH. reflexivity. }
    rewrite E. split; [reflexivity|].
    apply insert_id. rewrite Hlive. destruct r; reflexivity.
Qed.

Lemma remove_phone_removes_all_witness :
  demo_heap !! 0 = Some john
  ∧ ∃ kept,
      Record.remove_phone 0 (lit "1234567890") demo_heap
        = (Return (), <[0 := Record.mk (Record.name john) kept]> demo_heap)
      ∧ kept = filter (λ p, Phone.value p ≠ lit "1234567890") (Record.phones john)
      ∧ kept `sublist_of` Record.phones john
      ∧ (∀ p, p ∈ kept ↔ p ∈ Record.phones john ∧ Phone.value p ≠ lit "1234567890")
      ∧ (Forall (λ p, Phone.value p ≠ lit "1234567890") (Record.phones john) →
         kept = Record.phones john
         ∧ <[0 := Record.mk (Record.name john) kept]> demo_heap = demo_heap).
Proof.
  split; [reflexivity|].
  exact (remove_phone_removes_all demo_heap 0 john (lit "1234567890") eq_refl).
Defined.

(** ** Adding and deleting records *)

(** C5: [add_record] returns normally and leaves the store alone; the book then
    maps the record's name to the record added, every other name as before;
    when the name was a key already no key is added, and the record formerly
    under it is a value of the book no more. *)
Theorem add_record_last_write_wins
  (h : heap) (b : AddressBook.t) (record : ref) (r : Record.t)
  (Hok : book_ok h b) (Hlive : h !! record = Some r) :
  ∃ b',
    AddressBook.add_record b record h = (Return b', h)
    ∧ AddressBook.find b' (Name.value (Record.name r)) = Some record
    ∧ (∀ k, k ≠ Name.value (Record.name r) →
         AddressBook.find b' k = AddressBook.find b k)
    ∧ (Name.value (Record.name r) ∈ keys (AddressBook.data b) →
         keys (AddressBook.data b') = keys (AddressBook.data b))
    ∧ (∀ old, AddressBook.find b (Name.value (Record.name r)) = Some old →
         old ≠ record → old ∉ values (AddressBook.data b'))
    ∧ book_ok h b'.
Proof.
  eexists. split; [apply add_record_eq, Hlive|].
  unfold AddressBook.find. cbn [AddressBook.data].
  split; [apply get_setitem_eq|].
  split; [intros k Hk; apply get_setitem_ne; congruence|].
  split; [apply keys_setitem_present|].
  split; [|apply book_ok_setitem; assumption].
  intros old Hold Hne Hin. destruct Hok as [Hwf Hen].
  unfold values in Hin. apply list_elem_of_fmap in Hin as ([k l] & Hl & Hin).
  cbn in Hl. subst l.
  apply (elem_of_setitem _ _ _ _ _ Hwf) in Hin as [[_ ->]|[Hk Hin]]; [congruence|].
  apply get_Some_elem_of in Hold. rewrite Forall_forall in Hen.
  pose proof (Hen _ Hin) as E1. pose proof (Hen _ Hold) as E2.
  unfold entry_ok in E1, E2. cbn in E1, E2. congruence.
Qed.

Lemma add_record_last_write_wins_witness :
  (book_ok (<[2 := Record.mk (Name.__init__ (lit "John")) []]> demo_heap) demo_book
   ∧ <[2 := Record.mk (Name.__init__ (lit "John")) []]> demo_heap !! 2
     = Some (Record.mk (Name.__init__ (lit "John")) []))
  ∧ ∃ b',
      AddressBook.add_record demo_book 2
        (<[2 := Record.mk (Name.__init__ (lit "John")) []]> demo_heap)
      = (Return b', <[2 := Record.mk (Name.__init__ (lit "John")) []]> demo_heap)
      ∧ AddressBook.find b' (lit "John") = Some 2
      ∧ (∀ k, k ≠ lit "John" → AddressBook.find b' k = AddressBook.find demo_book k)
      ∧ (lit "John" ∈ keys (AddressBook.data demo_book) →
           keys (AddressBook.data b') = keys (AddressBook.data demo_book))
      ∧ (∀ old, AddressBook.find demo_book (lit "John") = Some old →
           old ≠ 2 → old ∉ values (AddressBook.data b'))
      ∧ book_ok (<[2 := Record.mk (Name.__init__ (lit "John")) []]> demo_heap) b'.
Proof.
  assert (H1 : book_ok (<[2 := Record.mk (Name.__init__ (lit "John")) []]> demo_heap)
                 demo_book).
  { split; [compute_done|]. repeat constructor. }
  split; [split; [exact H1|reflexivity]|].
  exact (add_record_last_write_wins _ demo_book 2 _ H1 eq_refl).
Defined.

(** C6: [delete(name)] returns a book in which [name] is not found and every
    other name is found as before; its entries are the former ones under
    another key, in their order, and so are the lines of its rendering; when
    [name] was not a key the book is the same. *)
Theorem delete_never_fails
  (h : heap) (b : AddressBook.t) (name : str) (Hok : book_ok h b) :
  AddressBook.find (AddressBook.delete b name) name = None
  ∧ (∀ k, k ≠ name →
       AddressBook.find (AddressBook.delete b name) k = AddressBook.find b k)
  ∧ AddressBook.data (AddressBook.delete b name) = others name (AddressBook.data b)
  ∧ AddressBook.__str__ (AddressBook.delete b name) h
    = (Return (join newline
                 (line_of h <$> values (others name (AddressBook.data b)))), h)
  ∧ (AddressBook.find b name = None → AddressBook.delete b name = b).
Proof.
  pose proof (book_ok_delete h b name Hok) as Hok'.
  destruct Hok as [Hwf Hen].
  rewrite book_str_eq by exact Hok'.
  rewrite delete_eq by exact Hwf. unfold AddressBook.find. cbn [AddressBook.data].
  split; [apply get_others_eq|].
  split; [intros k Hk; apply get_others_ne, Hk|].
  split; [reflexivity|]. split; [reflexivity|].
  intros Hnone. apply get_None in Hnone. rewrite others_absent by exact Hnone.
  destruct b; reflexivity.
Qed.

Lemma delete_never_fails_witness :
  book_ok demo_heap demo_book
  ∧ (AddressBook.find (AddressBook.delete demo_book (lit "Jane")) (lit "Jane") = None
     ∧ (∀ k, k ≠ lit "Jane" →
          AddressBook.find (AddressBook.delete demo_book (lit "Jane")) k
          = AddressBook.find demo_book k)
     ∧ AddressBook.data (AddressBook.delete demo_book (lit "Jane"))
       = others (lit "Jane") (AddressBook.data demo_book)
     ∧ AddressBook.__str__ (AddressBook.delete demo_book (lit "Jane")) demo_heap
       = (Return (join newline
                    (line_of demo_heap
                       <$> values (others (lit "Jane") (AddressBook.data demo_book)))),
          demo_heap)
     ∧ (AddressBook.find demo_book (lit "Jane") = None →
        AddressBook.delete demo_book (lit "Jane") = demo_book)).
Proof.
  assert (H1 : book_ok demo_heap demo_book).
  { split; [compute_done|]. repeat constructor. }
  split; [exact H1|].
  exact (delete_never_fails demo_heap demo_book (lit "Jane") H1).
Defined.

(** ** Failure leaves the state alone *)

Lemma add_phone_raise (self : ref) (raw : str) (h h' : heap) (e : exn) :
  Record.add_phone self raw h = (Raise e, h') → h' = h.
Proof.
  destruct (h !! self) as [r|] eqn:E.
  - rewrite (add_phone_eq h self r E). destruct (decide _); congruence.
  - unfold Record.add_phone. py_unfold. rewrite E. congruence.
Qed.

Lemma remove_phone_no_raise (self : ref) (v : str) (h h' : heap) (e : exn) :
  Record.remove_phone self v h ≠ (Raise e, h').
Proof.
  destruct (h !! self) as [r|] eqn:E.
  - rewrite (remove_phone_eq h self r E). congruence.
  - unfold Record.remove_phone. py_unfold. rewrite E. congruence.
Qed.

Lemma find_phone_no_raise (self : ref) (v : str) (h h' : heap) (e : exn) :
  Record.find_phone self v h ≠ (Raise e, h').
Proof.
  destruct (h !! self) as [r|] eqn:E.
  - rewrite (find_phone_eq h self r E). congruence.
  - unfold Record.find_phone. py_unfold. rewrite E. congruence.
Qed.

Lemma add_record_no_raise (b : AddressBook.t) (record : ref) (h h' : heap) (e : exn) :
  AddressBook.add_record b record h ≠ (Raise e, h').
Proof.
  unfold AddressBook.add_record. py_unfold. destruct (h !! record); congruence.
Qed.

(** C7: a call that raises leaves the store as it found it.  [add_phone] with
    a string that does not normalize to ten digits raises
    [InvalidPhoneNumber] and the record still has the phones it had; whenever
    [Phone], [add_phone] or [edit_phone] raise, the store is the one before
    the call; the other methods do not raise. *)
Theorem failed_call_keeps_state
  (h : heap) (self : ref) (r : Record.t) (raw : str)
  (Hlive : h !! self = Some r)
  (Hbad : length (spec_normalize raw) ≠ 10) :
  Record.add_phone self raw h = (Raise (InvalidPhoneNumber (spec_normalize raw)), h)
  ∧ (Record.add_phone self raw h).2 !! self = Some r
  ∧ (∀ s e h', Phone.__init__ s h = (Raise e, h') → h' = h)
  ∧ (∀ l s e h', Record.add_phone l s h = (Raise e, h') → h' = h)
  ∧ (∀ l old new e h', Record.edit_phone l old new h = (Raise e, h') → h' = h)
  ∧ (∀ l v e h', Record.remove_phone l v h ≠ (Raise e, h'))
  ∧ (∀ l v e h', Record.find_phone l v h ≠ (Raise e, h'))
  ∧ (∀ name e h', Record.__init__ name h ≠ (Raise e, h'))
  ∧ (∀ b l e h', AddressBook.add_record b l h ≠ (Raise e, h')).
Proof.
  assert (E : Record.add_phone self raw h
              = (Raise (InvalidPhoneNumber (spec_normalize raw)), h)).
  { rewrite (add_phone_eq h self r Hlive). destruct (decide _); [contradiction|reflexivity]. }
  split; [exact E|]. rewrite E. split; [exact Hlive|].
  split.
  { intros s e h'. rewrite Phone_init_eq. destruct (decide _); congruence. }
  split; [intros l s e h'; apply add_phone_raise|].
  split.
  { intros l old new e h' Hr. pose proof (edit_phone_heap l old new h) as Hh.
    rewrite Hr in Hh. exact Hh. }
  split; [intros l v e h'; apply remove_phone_no_raise|].
  split; [intros l v e h'; apply find_phone_no_raise|].
  split; [intros name e h'; unfold Record.__init__, alloc; congruence|].
  intros b l e h'. apply add_record_no_raise.
Qed.

Lemma failed_call_keeps_state_witness :
  (demo_heap !! 0 = Some john ∧ length (spec_normalize (lit "3812345678")) ≠ 10)
  ∧ Record.add_phone 0 (lit "3812345678") demo_heap
    = (Raise (InvalidPhoneNumber (spec_normalize (lit "3812345678"))), demo_heap).
Proof.
  assert (H2 : length (spec_normalize (lit "3812345678")) ≠ 10) by (vm_compute; lia).
  split; [split; [reflexivity|exact H2]|].
  exact (proj1 (failed_call_keeps_state demo_heap 0 john (lit "3812345678") eq_refl H2)).
Defined.

(** ** The invariant of the phones *)

Lemma class_d_ascii (c : N) : (c < 128)%N → class_d c = true → ascii_digit c.
Proof.
  intros Hc Hd. unfold class_d in Hd.
  apply existsb_exists in Hd as (run & Hin & Hrun).
  unfold in_run in Hrun. apply andb_prop in Hrun as [Hlo Hhi].
  apply N.leb_le in Hlo. apply N.ltb_lt in Hhi. unfold ascii_digit.
  unfold decimal_runs in Hin. cbn [In] in Hin.
  repeat (destruct Hin as [<-|Hin]; [cbn [fst snd] in *; lia|]).
  destruct Hin.
Qed.

Lemma spec_normalize_ascii (raw : str) :
  Forall (λ c, (c < 128)%N) raw → Forall ascii_digit (spec_normalize raw).
Proof.
  intros Hraw. apply spec_strip_38_Forall. unfold spec_digits.
  apply Forall_forall. intros c Hc. apply list_elem_of_filter in Hc as [Hd Hc].
  rewrite Forall_forall in Hraw. apply class_d_ascii; [apply Hraw, Hc|].
  apply Is_true_true, Hd.
Qed.

Lemma fresh_ref_free (h : heap) : h !! fresh (dom h) = None.
Proof. apply not_elem_of_dom. apply is_fresh. Qed.

Section phones_all_facts.
Variable P : str → Prop.
Variable h : heap.
Hypothesis Hinv : phones_all P h.

Lemma add_phone_phones_all (self : ref) (raw : str) :
  (length (spec_normalize raw) = 10 → P (spec_normalize raw)) →
  phones_all P (Record.add_phone self raw h).2.
Proof.
  intros HP. destruct (h !! self) as [r|] eqn:E.
  - rewrite (add_phone_eq h self r E). destruct (decide _) as [Hlen|]; [|exact Hinv].
    apply phones_all_insert; [exact Hinv|]. cbn.
    apply Forall_app. split; [exact (Hinv self r E)|].
    constructor; [exact (HP Hlen)|constructor].
  - unfold Record.add_phone. py_unfold. rewrite E. exact Hinv.
Qed.

Lemma remove_phone_phones_all (self : ref) (v : str) :
  phones_all P (Record.remove_phone self v h).2.
Proof.
  destruct (h !! self) as [r|] eqn:E.
  - rewrite (remove_phone_eq h self r E).
    apply phones_all_insert; [exact Hinv|]. cbn.
    apply Forall_forall. intros p Hp. apply list_elem_of_filter in Hp as [_ Hp].
    pose proof (Hinv self r E) as Hr. rewrite Forall_forall in Hr. apply Hr, Hp.
  - unfold Record.remove_phone. py_unfold. rewrite E. exact Hinv.
Qed.

Lemma Record_init_phones_all (name : str) :
  phones_all P (Record.__init__ name h).2.
Proof.
  unfold Record.__init__, alloc. cbn.
  apply phones_all_insert; [exact Hinv|]. constructor.
Qed.

End phones_all_facts.

Section book_ok_facts.
Variables (h : heap) (b : AddressBook.t).
Hypothesis Hok : book_ok h b.

Lemma add_phone_book_ok (self : ref) (raw : str) :
  book_ok (Record.add_phone self raw h).2 b.
Proof.
  destruct (h !! self) as [r|] eqn:E.
  - rewrite (add_phone_eq h self r E). destruct (decide _); [|exact Hok].
    apply (book_ok_update h b self r); [exact Hok|exact E|reflexivity].
  - unfold Record.add_phone. py_unfold. rewrite E. exact Hok.
Qed.

Lemma remove_phone_book_ok (self : ref) (v : str) :
  book_ok (Record.remove_phone self v h).2 b.
Proof.
  destruct (h !! self) as [r|] eqn:E.
  - rewrite (remove_phone_eq h self r E).
    apply (book_ok_update h b self r); [exact Hok|exact E|reflexivity].
  - unfold Record.remove_phone. py_unfold. rewrite E. exact Hok.
Qed.

Lemma Record_init_book_ok (name : str) : book_ok (Record.__init__ name h).2 b.
Proof.
  unfold Record.__init__, alloc. cbn.
  apply book_ok_fresh; [exact Hok|apply fresh_ref_free].
Qed.

Lemma add_record_book_ok (record : ref) (b' : AddressBook.t) (h' : heap) :
  AddressBook.add_record b record h = (Return b', h') → h' = h ∧ book_ok h b'.
Proof.
  destruct (h !! record) as [r|] eqn:E.
  - rewrite (add_record_eq b record r h E). intros [= <- <-].
    split; [reflexivity|]. apply book_ok_setitem; assumption.
  - unfold AddressBook.add_record. py_unfold. rewrite E. discriminate.
Qed.

End book_ok_facts.

Lemma book_inv_initial : book_inv ∅ AddressBook.__init__.
Proof. split; [apply map_Forall_empty|apply book_ok_empty]. Qed.

(** C8, as stated, fails: on a record without phones,
    [add_phone] of the ten ARABIC-INDIC digits U+0660..U+0669 returns
    normally, [\D] matching none of them, and the phone stored is not made of
    ASCII digits. *)
Lemma ascii_digit_invariant_broken :
  phones_all ten_ascii_digits (<[0 := Record.mk (Name.__init__ (lit "John")) []]> ∅)
  ∧ Record.add_phone 0 arabic_indic_digits
      (<[0 := Record.mk (Name.__init__ (lit "John")) []]> ∅)
    = (Return (),
       <[0 := Record.mk (Name.__init__ (lit "John")) [phone_of arabic_indic_digits]]>
         (<[0 := Record.mk (Name.__init__ (lit "John")) []]> ∅))
  ∧ ¬ phones_all ten_ascii_digits
        (Record.add_phone 0 arabic_indic_digits
           (<[0 := Record.mk (Name.__init__ (lit "John")) []]> ∅)).2.
Proof.
  split; [compute_done|]. split; [reflexivity|].
  intros Hall. specialize (Hall 0 _ eq_refl). cbn in Hall.
  inversion Hall as [|p ps [_ Hd] _]. inversion Hd as [|c cs Hc _].
  unfold ascii_digit in Hc. lia.
Qed.

(** C8, amended: every phone of every live record, those reached from the
    book among them, is a string of exactly 10 characters of the class [\d]
    (the Unicode decimal digits), and [add_phone], [remove_phone],
    [edit_phone], the construction of a record, [add_record] and [delete]
    keep it so; when the string given to [add_phone] is ASCII the phones stay
    strings of 10 ASCII digits; adding the same number twice stores it
    twice. *)
Theorem ten_digits_invariant
  (h : heap) (b : AddressBook.t) (Hinv : book_inv h b) :
  (∀ self raw, book_inv (Record.add_phone self raw h).2 b)
  ∧ (∀ self v, book_inv (Record.remove_phone self v h).2 b)
  ∧ (∀ self old new, book_inv (Record.edit_phone self old new h).2 b)
  ∧ (∀ name, book_inv (Record.__init__ name h).2 b)
  ∧ (∀ record b' h',
       AddressBook.add_record b record h = (Return b', h') → book_inv h' b')
  ∧ (∀ name, book_inv h (AddressBook.delete b name))
  ∧ (∀ name l, AddressBook.find b name = Some l →
       ∃ r, h !! l = Some r
            ∧ Forall (λ p, ten_digits (Phone.value p)) (Record.phones r))
  ∧ (∀ self raw,
       phones_all ten_ascii_digits h → Forall (λ c, (c < 128)%N) raw →
       phones_all ten_ascii_digits (Record.add_phone self raw h).2)
  ∧ (∀ self r raw,
       h !! self = Some r → length (spec_normalize raw) = 10 →
       ∃ h1 h2,
         Record.add_phone self raw h = (Return (), h1)
         ∧ Record.add_phone self raw h1 = (Return (), h2)
         ∧ h2 !! self
           = Some (Record.mk (Record.name r)
                     (Record.phones r
                      ++ [phone_of (spec_normalize raw);
                          phone_of (spec_normalize raw)]))).
Proof.
  destruct Hinv as [Hph Hok].
  split.
  { intros self raw. split; [|apply add_phone_book_ok, Hok].
    apply add_phone_phones_all; [exact Hph|].
    intros Hlen. split; [exact Hlen|apply spec_normalize_Forall]. }
  split.
  { intros self v. split;
      [apply remove_phone_phones_all, Hph|apply remove_phone_book_ok, Hok]. }
  split.
  { intros self old new. rewrite edit_phone_heap. split; assumption. }
  split.
  { intros name. split;
      [apply Record_init_phones_all, Hph|apply Record_init_book_ok, Hok]. }
  split.
  { intros record b' h' Hadd.
    destruct (add_record_book_ok h b Hok record b' h' Hadd) as [-> Hok'].
    split; assumption. }
  split.
  { intros name. split; [exact Hph|apply book_ok_delete, Hok]. }
  split.
  { intros name l Hfind. apply get_Some_elem_of in Hfind.
    destruct Hok as [_ Hen]. rewrite Forall_forall in Hen.
    destruct (entry_ok_live h _ (Hen _ Hfind)) as (r & Hr & _). cbn in Hr.
    exists r. split; [exact Hr|exact (Hph l r Hr)]. }
  split.
  { intros self raw Hascii Hraw. apply add_phone_phones_all; [exact Hascii|].
    intros Hlen. split; [exact Hlen|apply spec_normalize_ascii, Hraw]. }
  intros self r raw Hlive Hlen.
  eexists _, _. rewrite (add_phone_eq h self r Hlive).
  destruct (decide _) as [_|Hn]; [|contradiction].
  split; [reflexivity|].
  erewrite add_phone_eq by apply lookup_insert_eq.
  destruct (decide _) as [_|Hn]; [|contradiction].
  split; [reflexivity|]. rewrite lookup_insert_eq. cbn.
  rewrite <- app_assoc. reflexivity.
Qed.

Lemma ten_digits_invariant_witness :
  book_inv demo_heap demo_book
  ∧ ∀ self raw, book_inv (Record.add_phone self raw demo_heap).2 demo_book.
Proof.
  assert (H1 : book_inv demo_heap demo_book) by compute_done.
  split; [exact H1|].
  exact (proj1 (ten_digits_invariant demo_heap demo_book H1)).
Defined.

(** ** References into the book *)





(** ** Names *)

(** C10, as stated, fails: [Record("")] is constructed like any other record
    and its name wraps the empty string. *)
Lemma empty_name_accepted :
  Record.__init__ [] ∅ = (Return 0, <[0 := Record.mk (Name.__init__ []) []]> ∅)
  ∧ ¬ (∀ (name : str) (h h' : heap) (l : ref) (r : Record.t),
         Record.__init__ name h = (Return l, h') → h' !! l = Some r →
         Name.value (Record.name r) ≠ []).
Proof.
  split; [reflexivity|].
  intros Hclaim.
  apply (Hclaim [] ∅ (<[0 := Record.mk (Name.__init__ []) []]> ∅) 0
           (Record.mk (Name.__init__ []) [])); reflexivity.
Qed.

(** C10, amended: constructing a record always returns a new reference to a
    record without phones whose name wraps the string given, unchanged; that
    string is the key [add_record] files the record under, and it is
    non-empty exactly when the string given is. *)
Theorem Record_init_keeps_name (name : str) (h : heap) :
  ∃ l,
    h !! l = None
    ∧ Record.__init__ name h
      = (Return l, <[l := Record.mk (Name.__init__ name) []]> h)
    ∧ Name.value (Name.__init__ name) = name
    ∧ (Name.value (Name.__init__ name) ≠ [] ↔ name ≠ [])
    ∧ (∀ b, AddressBook.add_record b l (<[l := Record.mk (Name.__init__ name) []]> h)
            = (Return (AddressBook.mk (setitem (AddressBook.data b) name l)),
               <[l := Record.mk (Name.__init__ name) []]> h)).
Proof.
  exists (fresh (dom h)). split; [apply fresh_ref_free|].
  split; [reflexivity|]. split; [reflexivity|]. split; [reflexivity|].
  intros b. erewrite add_record_eq by apply lookup_insert_eq. reflexivity.
Qed.

(** ** More on phone construction *)

Lemma spec_digits_id (v : str) : Forall (λ c, class_d c) v → spec_digits v = v.
Proof.
  unfold spec_digits. induction 1 as [|c v Hc _ IH]; [reflexivity|].
  rewrite filter_cons_True by exact Hc. rewrite IH. reflexivity.
Qed.

Lemma spec_digits_app (a b : str) :
  spec_digits (a ++ b) = spec_digits a ++ spec_digits b.
Proof. unfold spec_digits. apply filter_app. Qed.

Lemma startswith_38_length (s : str) :
  startswith s (lit "38") = true → 2 ≤ length s.
Proof.
  change (lit "38") with [51%N; 56%N].
  destruct s as [|c [|d s]]; cbn -[bool_decide]; try discriminate.
  - rewrite andb_false_r. discriminate.
  - intros _. lia.
Qed.

(** X1: [Phone] accepts a string exactly when it has twelve digits of which
    the first two are ["38"], or ten digits that do not begin with ["38"]. *)
Theorem Phone_accepts_iff (raw : str) (h : heap) :
  (∃ p, Phone.__init__ raw h = (Return p, h))
  ↔ (startswith (spec_digits raw) (lit "38") = true ∧ length (spec_digits raw) = 12)
    ∨ (startswith (spec_digits raw) (lit "38") = false
       ∧ length (spec_digits raw) = 10).
Proof.
  rewrite Phone_init_eq. unfold spec_normalize. rewrite <- startswith_38.
  destruct (startswith (spec_digits raw) (lit "38")) eqn:E.
  - apply startswith_38_length in E. unfold slice_from. rewrite length_drop.
    destruct (decide _) as [Hl|Hl].
    + split; [intros _; left; split; [reflexivity|lia]|]. intros _. eexists. reflexivity.
    + split; [intros [p Hp]; discriminate Hp|].
      intros [[_ Hlen]|[Hf _]]; [lia|discriminate Hf].
  - destruct (decide _) as [Hl|Hl].
    + split; [intros _; right; split; [reflexivity|exact Hl]|].
      intros _. eexists. reflexivity.
    + split; [intros [p Hp]; discriminate Hp|].
      intros [[Hf _]|[_ Hlen]]; [discriminate Hf|contradiction].
Qed.

(** X2: constructing a [Phone] again from a stored value of ten digits gives
    the same value back unless the value begins with ["38"]; then the prefix
    is dropped once more and the eight digits left are rejected. *)
Theorem Phone_of_stored_value (v : str) (h : heap) (Hv : ten_digits v) :
  Phone.__init__ v h =
  if startswith v (lit "38")
  then (Raise (InvalidPhoneNumber (slice_from 2 v)), h)
  else (Return (phone_of v), h).
Proof.
  destruct Hv as [Hlen Hd]. rewrite Phone_init_eq. unfold spec_normalize.
  rewrite (spec_digits_id v Hd), <- startswith_38.
  destruct (startswith v (lit "38")).
  - unfold slice_from. rewrite length_drop, Hlen.
    destruct (decide _) as [Hl|_]; [cbn in Hl; lia|reflexivity].
  - destruct (decide _) as [_|Hl]; [reflexivity|contradiction].
Qed.

Lemma Phone_of_stored_value_witness :
  ten_digits (lit "3812345678")
  ∧ Phone.__init__ (lit "3812345678") demo_heap =
    if startswith (lit "3812345678") (lit "38")
    then (Raise (InvalidPhoneNumber (slice_from 2 (lit "3812345678"))), demo_heap)
    else (Return (phone_of (lit "3812345678")), demo_heap).
Proof.
  assert (H1 : ten_digits (lit "3812345678")) by compute_done.
  split; [exact H1|].
  exact (Phone_of_stored_value (lit "3812345678") demo_heap H1).
Defined.

(** X3: a character that is not a digit changes nothing wherever it stands in
    the string given to [Phone]. *)
Theorem Phone_ignores_separators (a b : str) (c : N) (h : heap)
  (Hc : class_d c = false) :
  Phone.__init__ (a ++ c :: b) h = Phone.__init__ (a ++ b) h.
Proof.
  rewrite !Phone_init_eq. unfold spec_normalize.
  assert (E : spec_digits (c :: b) = spec_digits b).
  { unfold spec_digits. apply filter_cons_False. rewrite Hc. exact id. }
  rewrite !spec_digits_app, E. reflexivity.
Qed.

Lemma Phone_ignores_separators_witness :
  class_d 45 = false
  ∧ Phone.__init__ (lit "050" ++ 45%N :: lit "1112233") demo_heap
    = Phone.__init__ (lit "050" ++ lit "1112233") demo_heap.
Proof.
  split; [reflexivity|].
  exact (Phone_ignores_separators (lit "050") (lit "1112233") 45 demo_heap eq_refl).
Defined.

(** X4: the message of each error determines the string it was raised for:
    the digits left after stripping for an invalid number, the number looked
    for when none was found. *)
Theorem error_messages_carry_their_string (s1 s2 : str) :
  (InvalidPhoneNumber s1 = InvalidPhoneNumber s2 ↔ s1 = s2)
  ∧ (PhoneNotFound s1 = PhoneNotFound s2 ↔ s1 = s2).
Proof.
  unfold InvalidPhoneNumber, PhoneNotFound, Phone.invalid_msg, Record.not_found_msg.
  split; (split; [|intros ->; reflexivity]); intros [= E];
    apply app_inv_tail in E; exact E.
Qed.

(** ** More on the phones of a record *)

Lemma phone_eta (p : Phone.t) : p = phone_of (Phone.value p).
Proof. destruct p as [[v]]. reflexivity. Qed.

Lemma next_or_None_app {A} (cond : A → bool) (xs ys : list A) :
  next_or_None cond (xs ++ ys) =
  match next_or_None cond xs with
  | Some x => Some x
  | None => next_or_None cond ys
  end.
Proof.
  induction xs as [|x xs IH]; [reflexivity|].
  cbn. destruct (cond x); [reflexivity|exact IH].
Qed.

Lemma next_or_None_filter {A} (cond : A → bool) (P : A → Prop)
  `{∀ x, Decision (P x)} (xs : list A) :
  (∀ x, cond x = true → P x) →
  next_or_None cond (filter P xs) = next_or_None cond xs.
Proof.
  intros HP. induction xs as [|x xs IH]; [reflexivity|].
  rewrite filter_cons. destruct (decide (P x)) as [Hx|Hx]; cbn.
  - rewrite IH. reflexivity.
  - destruct (cond x) eqn:E; [exfalso; apply Hx, HP, E|exact IH].
Qed.

Lemma filter_all {A} (P : A → Prop) `{∀ x, Decision (P x)} (xs : list A) :
  Forall P xs → filter P xs = xs.
Proof.
  induction 1 as [|x xs Hx _ IH]; [reflexivity|].
  rewrite filter_cons_True by exact Hx. rewrite IH. reflexivity.
Qed.

(** X5: after [add_phone] has returned, [find_phone] with the normalized
    number returns a phone of that value. *)
Theorem add_phone_then_find_phone
  (h : heap) (self : ref) (r : Record.t) (raw : str)
  (Hlive : h !! self = Some r)
  (Hvalid : length (spec_normalize raw) = 10) :
  ∃ h',
    Record.add_phone self raw h = (Return (), h')
    ∧ Record.find_phone self (spec_normalize raw) h'
      = (Return (Some (phone_of (spec_normalize raw))), h').
Proof.
  eexists. rewrite (add_phone_eq h self r Hlive).
  destruct (decide _) as [_|Hn]; [|contradiction].
  split; [reflexivity|].
  erewrite find_phone_eq by apply lookup_insert_eq. cbn [Record.phones].
  rewrite next_or_None_app.
  destruct (next_or_None _ (Record.phones r)) as [p|] eqn:E.
  - apply next_or_None_Some in E as (before & after & _ & Hp & _).
    apply bool_decide_eq_true_1 in Hp. rewrite (phone_eta p), Hp. reflexivity.
  - cbn -[bool_decide]. rewrite bool_decide_eq_true_2 by reflexivity. reflexivity.
Qed.

Lemma add_phone_then_find_phone_witness :
  (demo_heap !! 1 = Some jane ∧ length (spec_normalize (lit "+38 050 111 22 33")) = 10)
  ∧ ∃ h',
      Record.add_phone 1 (lit "+38 050 111 22 33") demo_heap = (Return (), h')
      ∧ Record.find_phone 1 (spec_normalize (lit "+38 050 111 22 33")) h'
        = (Return (Some (phone_of (spec_normalize (lit "+38 050 111 22 33")))), h').
Proof.
  split; [split; reflexivity|].
  exact (add_phone_then_find_phone demo_heap 1 jane (lit "+38 050 111 22 33")
           eq_refl eq_refl).
Defined.

(** X6: [find_phone] leaves the store alone and returns the first phone, in
    the order of the record, whose value equals the string given; it returns
    [None] exactly when no phone has that value. *)
Theorem find_phone_first_match
  (h : heap) (self : ref) (r : Record.t) (v : str)
  (Hlive : h !! self = Some r) :
  ∃ o,
    Record.find_phone self v h = (Return o, h)
    ∧ (o = None ↔ Forall (λ p, Phone.value p ≠ v) (Record.phones r))
    ∧ (∀ p, o = Some p →
         ∃ before after,
           Record.phones r = before ++ p :: after
           ∧ Phone.value p = v
           ∧ Forall (λ q, Phone.value q ≠ v) before).
Proof.
  eexists. split; [apply find_phone_eq, Hlive|]. split.
  - rewrite next_or_None_None. apply Forall_iff. intros p.
    rewrite bool_decide_eq_false. reflexivity.
  - intros p Hp. apply next_or_None_Some in Hp as (before & after & E & Hv & Hb).
    exists before, after. split; [exact E|].
    split; [apply bool_decide_eq_true_1 in Hv; exact Hv|].
    eapply Forall_impl; [exact Hb|]. intros q Hq.
    apply bool_decide_eq_false in Hq. exact Hq.
Qed.

Lemma find_phone_first_match_witness :
  demo_heap !! 0 = Some john
  ∧ ∃ o,
      Record.find_phone 0 (lit "5555555555") demo_heap = (Return o, demo_heap)
      ∧ (o = None ↔ Forall (λ p, Phone.value p ≠ lit "5555555555") (Record.phones john))
      ∧ (∀ p, o = Some p →
           ∃ before after,
             Record.phones john = before ++ p :: after
             ∧ Phone.value p = lit "5555555555"
             ∧ Forall (λ q, Phone.value q ≠ lit "5555555555") before).
Proof.
  split; [reflexivity|].
  exact (find_phone_first_match demo_heap 0 john (lit "5555555555") eq_refl).
Defined.

(** X7: the phones being stored normalized, [find_phone] with a string that
    is not ten digits (a number written with separators, say) finds
    nothing. *)
Theorem find_phone_needs_normalized
  (h : heap) (self : ref) (r : Record.t) (v : str)
  (Hinv : phones_all ten_digits h)
  (Hlive : h !! self = Some r)
  (Hraw : ¬ ten_digits v) :
  Record.find_phone self v h = (Return None, h).
Proof.
  rewrite (find_phone_eq h self r Hlive). f_equal. f_equal.
  apply next_or_None_None. pose proof (Hinv self r Hlive) as Hr.
  eapply Forall_impl; [exact Hr|]. intros p Hp. cbn in Hp.
  apply bool_decide_eq_false. intros E. apply Hraw. rewrite <- E. exact Hp.
Qed.

Lemma find_phone_needs_normalized_witness :
  (phones_all ten_digits demo_heap
   ∧ demo_heap !! 0 = Some john
   ∧ ¬ ten_digits (lit "+38123456-7890"))
  ∧ Record.find_phone 0 (lit "+38123456-7890") demo_heap = (Return None, demo_heap).
Proof.
  assert (H1 : phones_all ten_digits demo_heap) by compute_done.
  assert (H3 : ¬ ten_digits (lit "+38123456-7890")) by compute_done.
  split; [split; [exact H1|split; [reflexivity|exact H3]]|].
  exact (find_phone_needs_normalized demo_heap 0 john (lit "+38123456-7890")
           H1 eq_refl H3).
Defined.

(** X8: after [remove_phone(v)], [find_phone(v)] returns [None], and for any
    other number it returns what it returned before. *)
Theorem remove_phone_then_find_phone
  (h : heap) (self : ref) (r : Record.t) (v : str)
  (Hlive : h !! self = Some r) :
  ∃ h',
    Record.remove_phone self v h = (Return (), h')
    ∧ Record.find_phone self v h' = (Return None, h')
    ∧ ∀ w, w ≠ v →
        (Record.find_phone self w h').1 = (Record.find_phone self w h).1.
Proof.
  eexists. split; [apply remove_phone_eq, Hlive|]. split.
  - erewrite find_phone_eq by apply lookup_insert_eq. cbn [Record.phones].
    f_equal. f_equal. apply next_or_None_None, Forall_forall. intros p Hp.
    apply list_elem_of_filter in Hp as [Hp _]. apply bool_decide_eq_false, Hp.
  - intros w Hw. erewrite find_phone_eq by apply lookup_insert_eq.
    rewrite (find_phone_eq h self r Hlive). cbn [fst Record.phones]. f_equal.
    apply next_or_None_filter. intros p Hp.
    apply bool_decide_eq_true_1 in Hp. congruence.
Qed.

Lemma remove_phone_then_find_phone_witness :
  demo_heap !! 0 = Some john
  ∧ ∃ h',
      Record.remove_phone 0 (lit "1234567890") demo_heap = (Return (), h')
      ∧ Record.find_phone 0 (lit "1234567890") h' = (Return None, h')
      ∧ ∀ w, w ≠ lit "1234567890" →
          (Record.find_phone 0 w h').1 = (Record.find_phone 0 w demo_heap).1.
Proof.
  split; [reflexivity|].
  exact (remove_phone_then_find_phone demo_heap 0 john (lit "1234567890") eq_refl).
Defined.

(** X9: adding a number the record did not have and then removing it by its
    normalized value gives back the store there was before. *)
Theorem add_phone_then_remove_phone
  (h : heap) (self : ref) (r : Record.t) (raw : str)
  (Hlive : h !! self = Some r)
  (Hvalid : length (spec_normalize raw) = 10)
  (Hnew : Forall (λ p, Phone.value p ≠ spec_normalize raw) (Record.phones r)) :
  ∃ h',
    Record.add_phone self raw h = (Return (), h')
    ∧ Record.remove_phone self (spec_normalize raw) h' = (Return (), h).
Proof.
  eexists. rewrite (add_phone_eq h self r Hlive).
  destruct (decide _) as [_|Hn]; [|contradiction].
  split; [reflexivity|].
  erewrite remove_phone_eq by apply lookup_insert_eq. cbn [Record.phones Record.name].
  rewrite filter_app, (filter_all _ _ Hnew).
  rewrite filter_cons_False by (intros Hne; apply Hne; reflexivity).
  rewrite filter_nil, app_nil_r, insert_insert_eq. f_equal.
  apply insert_id. rewrite Hlive. destruct r; reflexivity.
Qed.

Lemma add_phone_then_remove_phone_witness :
  (demo_heap !! 1 = Some jane
   ∧ length (spec_normalize (lit "5555555555")) = 10
   ∧ Forall (λ p, Phone.value p ≠ spec_normalize (lit "5555555555"))
       (Record.phones jane))
  ∧ ∃ h',
      Record.add_phone 1 (lit "5555555555") demo_heap = (Return (), h')
      ∧ Record.remove_phone 1 (spec_normalize (lit "5555555555")) h'
        = (Return (), demo_heap).
Proof.
  assert (H3 : Forall (λ p, Phone.value p ≠ spec_normalize (lit "5555555555"))
                 (Record.phones jane)) by compute_done.
  split; [split; [reflexivity|split; [reflexivity|exact H3]]|].
  exact (add_phone_then_remove_phone demo_heap 1 jane (lit "5555555555")
           eq_refl eq_refl H3).
Defined.

(** X10: removing the same number twice is removing it once, and two removals
    reach the same store in either order. *)
Theorem remove_phone_idempotent_commutes
  (h : heap) (self : ref) (r : Record.t) (v w : str)
  (Hlive : h !! self = Some r) :
  (Record.remove_phone self v (Record.remove_phone self v h).2).2
    = (Record.remove_phone self v h).2
  ∧ (Record.remove_phone self w (Record.remove_phone self v h).2).2
    = (Record.remove_phone self v (Record.remove_phone self w h).2).2.
Proof.
  rewrite !(remove_phone_eq h self r Hlive). cbn [snd].
  split.
  - erewrite remove_phone_eq by apply lookup_insert_eq.
    cbn [snd Record.phones Record.name]. rewrite insert_insert_eq. do 2 f_equal.
    apply filter_all, Forall_forall. intros p Hp.
    apply list_elem_of_filter in Hp as [Hp _]. exact Hp.
  - erewrite !remove_phone_eq by apply lookup_insert_eq.
    cbn [snd Record.phones Record.name]. rewrite !insert_insert_eq. do 2 f_equal.
    rewrite !list_filter_filter. apply list_filter_iff. intros p. tauto.
Qed.

Lemma remove_phone_idempotent_commutes_witness :
  demo_heap !! 0 = Some john
  ∧ (Record.remove_phone 0 (lit "1234567890")
       (Record.remove_phone 0 (lit "1234567890") demo_heap).2).2
      = (Record.remove_phone 0 (lit "1234567890") demo_heap).2
  ∧ (Record.remove_phone 0 (lit "5555555555")
       (Record.remove_phone 0 (lit "1234567890") demo_heap).2).2
      = (Record.remove_phone 0 (lit "1234567890")
           (Record.remove_phone 0 (lit "5555555555") demo_heap).2).2.
Proof.
  split; [reflexivity|].
  exact (remove_phone_idempotent_commutes demo_heap 0 john
           (lit "1234567890") (lit "5555555555") eq_refl).
Defined.

(** X11: when some phone of the record equals [old], the outcome of
    [edit_phone(old, new)] is decided by [new] alone: it raises
    [InvalidPhoneNumber] with the digits of [new] when they are not ten, and
    returns otherwise; the store is the same in both cases. *)
Theorem edit_phone_present_outcome
  (h : heap) (self : ref) (r : Record.t) (old new : str)
  (Hlive : h !! self = Some r)
  (Hpresent : Exists (λ p, Phone.value p = old) (Record.phones r)) :
  Record.edit_phone self old new h =
  (if decide (length (spec_normalize new) = 10) then Return ()
   else Raise (InvalidPhoneNumber (spec_normalize new)), h).
Proof.
  rewrite (edit_phone_eq h self r Hlive). apply edit_phone_loop_present, Hpresent.
Qed.

Lemma edit_phone_present_outcome_witness :
  (demo_heap !! 0 = Some john
   ∧ Exists (λ p, Phone.value p = lit "5555555555") (Record.phones john))
  ∧ Record.edit_phone 0 (lit "5555555555") (lit "12345") demo_heap =
    (if decide (length (spec_normalize (lit "12345")) = 10) then Return ()
     else Raise (InvalidPhoneNumber (spec_normalize (lit "12345"))), demo_heap).
Proof.
  assert (H2 : Exists (λ p, Phone.value p = lit "5555555555") (Record.phones john))
    by compute_done.
  split; [split; [reflexivity|exact H2]|].
  exact (edit_phone_present_outcome demo_heap 0 john (lit "5555555555") (lit "12345")
           eq_refl H2).
Defined.

(** X12: a number that [find_phone] finds is found as before after any
    [add_phone], whether it returns or raises: new phones go to the end. *)
Theorem add_phone_keeps_earlier_matches
  (h : heap) (self : ref) (r : Record.t) (raw v : str)
  (Hlive : h !! self = Some r)
  (Hfound : Exists (λ p, Phone.value p = v) (Record.phones r)) :
  (Record.find_phone self v (Record.add_phone self raw h).2).1
  = (Record.find_phone self v h).1.
Proof.
  rewrite (add_phone_eq h self r Hlive).
  destruct (decide _) as [_|_]; [|reflexivity]. cbn [snd].
  erewrite find_phone_eq by apply lookup_insert_eq.
  rewrite (find_phone_eq h self r Hlive). cbn [fst Record.phones]. f_equal.
  rewrite next_or_None_app.
  destruct (next_or_None _ (Record.phones r)) as [p|] eqn:E; [reflexivity|].
  exfalso. apply next_or_None_None in E. apply Exists_exists in Hfound as (p & Hp & Hv).
  rewrite Forall_forall in E. specialize (E p Hp).
  apply bool_decide_eq_false in E. contradiction.
Qed.

Lemma add_phone_keeps_earlier_matches_witness :
  (demo_heap !! 0 = Some john
   ∧ Exists (λ p, Phone.value p = lit "5555555555") (Record.phones john))
  ∧ (Record.find_phone 0 (lit "5555555555")
       (Record.add_phone 0 (lit "5555555555") demo_heap).2).1
    = (Record.find_phone 0 (lit "5555555555") demo_heap).1.
Proof.
  assert (H2 : Exists (λ p, Phone.value p = lit "5555555555") (Record.phones john))
    by compute_done.
  split; [split; [reflexivity|exact H2]|].
  exact (add_phone_keeps_earlier_matches demo_heap 0 john (lit "5555555555")
           (lit "5555555555") eq_refl H2).
Defined.

(** ** Records do not interfere *)

(** X13: [add_phone], [remove_phone] and [edit_phone] leave every other
    record as it is, and the name of the record they are called on too. *)
Theorem record_methods_touch_only_self
  (h : heap) (self other : ref) (raw v old new : str)
  (Hother : other ≠ self) :
  (Record.add_phone self raw h).2 !! other = h !! other
  ∧ (Record.remove_phone self v h).2 !! other = h !! other
  ∧ (Record.edit_phone self old new h).2 !! other = h !! other
  ∧ Record.name <$> (Record.add_phone self raw h).2 !! self
    = Record.name <$> h !! self
  ∧ Record.name <$> (Record.remove_phone self v h).2 !! self
    = Record.name <$> h !! self.
Proof.
  rewrite edit_phone_heap.
  destruct (h !! self) as [r|] eqn:E.
  - rewrite (add_phone_eq h self r E), (remove_phone_eq h self r E). cbn [snd].
    destruct (decide _); cbn [snd];
      rewrite ?lookup_insert_eq, ?lookup_insert_ne by congruence;
      rewrite ?E; repeat split; reflexivity.
  - unfold Record.add_phone, Record.remove_phone. py_unfold. rewrite E. cbn [snd].
    rewrite E. repeat split; reflexivity.
Qed.

Lemma record_methods_touch_only_self_witness :
  1 ≠ 0
  ∧ (Record.add_phone 0 (lit "0501112233") demo_heap).2 !! 1 = demo_heap !! 1.
Proof.
  assert (H1 : 1 ≠ 0) by lia.
  split; [exact H1|].
  exact (proj1 (record_methods_touch_only_self demo_heap 0 1 (lit "0501112233")
                  [] [] [] H1)).
Defined.

(** X14: each construction of a record returns a reference that was not live,
    so two records, of the same name or not, are two objects; the records
    that were live stay as they were. *)
Theorem Record_init_fresh_reference (name1 name2 : str) (h : heap) :
  ∃ l1 l2 h1 h2,
    Record.__init__ name1 h = (Return l1, h1)
    ∧ Record.__init__ name2 h1 = (Return l2, h2)
    ∧ l1 ≠ l2
    ∧ h !! l1 = None ∧ h !! l2 = None
    ∧ h2 !! l1 = Some (Record.mk (Name.__init__ name1) [])
    ∧ h2 !! l2 = Some (Record.mk (Name.__init__ name2) [])
    ∧ ∀ l r, h !! l = Some r → h2 !! l = Some r.
Proof.
  eexists _, _, _, _. split; [reflexivity|]. split; [reflexivity|].
  set (l1 := fresh (dom h)).
  set (h1 := <[l1 := Record.mk (Name.__init__ name1) []]> h).
  set (l2 := fresh (dom h1)).
  assert (H1 : h !! l1 = None) by apply fresh_ref_free.
  assert (H2 : h1 !! l2 = None) by apply fresh_ref_free.
  assert (Hne : l1 ≠ l2).
  { intros E. rewrite <- E in H2. unfold h1 in H2.
    rewrite lookup_insert_eq in H2. discriminate H2. }
  assert (H3 : h !! l2 = None).
  { unfold h1 in H2. rewrite lookup_insert_ne in H2 by exact Hne. exact H2. }
  split; [exact Hne|]. split; [exact H1|]. split; [exact H3|].
  split.
  { rewrite lookup_insert_ne by congruence. apply lookup_insert_eq. }
  split; [apply lookup_insert_eq|].
  intros l r Hl. rewrite lookup_insert_ne by congruence.
  unfold h1. rewrite lookup_insert_ne by congruence. exact Hl.
Qed.

(** ** Renderings *)

Lemma join_fixed_length_inj (sep : str) (n : nat) (xs ys : list str) :
  0 < n → sep ≠ [] →
  Forall (λ x, length x = n) xs → Forall (λ y, length y = n) ys →
  join sep xs = join sep ys → xs = ys.
Proof.
  intros Hn Hsep Hxs. revert ys.
  induction Hxs as [|x xs Hx Hxs IH]; intros ys Hys E.
  - destruct Hys as [|y ys Hy Hys]; [reflexivity|].
    apply (f_equal length) in E. exfalso.
    destruct ys; cbn in E; rewrite ?length_app in E; lia.
  - destruct Hys as [|y ys Hy Hys].
    { apply (f_equal length) in E. exfalso.
      destruct xs; cbn in E; rewrite ?length_app in E; lia. }
    assert (E' : x ++ match xs with [] => [] | _ => sep ++ join sep xs end
                 = y ++ match ys with [] => [] | _ => sep ++ join sep ys end).
    { destruct xs, ys; cbn in E |- *; rewrite ?app_nil_r; exact E. }
    apply app_inj_1 in E' as [-> E']; [|congruence].
    f_equal. destruct xs as [|x' xs], ys as [|y' ys].
    + reflexivity.
    + exfalso. destruct sep; [contradiction|discriminate E'].
    + exfalso. destruct sep; [contradiction|discriminate E'].
    + apply IH; [exact Hys|]. apply app_inv_head in E'. exact E'.
Qed.

(** X15: for records whose phones are ten digits each, the rendering tells
    the phones: two records of one name that render alike have the same
    phones in the same order. *)
Theorem render_determines_phones (r1 r2 : Record.t)
  (Hname : Record.name r1 = Record.name r2)
  (H1 : Forall (λ p, ten_digits (Phone.value p)) (Record.phones r1))
  (H2 : Forall (λ p, ten_digits (Phone.value p)) (Record.phones r2))
  (Hrender : Record.render r1 = Record.render r2) :
  r1 = r2.
Proof.
  unfold Record.render in Hrender. rewrite Hname in Hrender.
  do 3 apply app_inv_head in Hrender.
  apply (join_fixed_length_inj _ 10) in Hrender;
    [|lia|discriminate
     |apply Forall_fmap; eapply Forall_impl; [eassumption|intros p [Hl _]; exact Hl]
     |apply Forall_fmap; eapply Forall_impl; [eassumption|intros p [Hl _]; exact Hl]].
  assert (E : Record.phones r1 = Record.phones r2).
  { clear -Hrender. revert Hrender. generalize (Record.phones r2).
    induction (Record.phones r1) as [|p ps IH]; intros [|q qs]; cbn;
      try discriminate; [reflexivity|].
    intros [= Hv Hr]. rewrite (phone_eta p), (phone_eta q), Hv.
    f_equal. apply IH, Hr. }
  destruct r1, r2. cbn in *. congruence.
Qed.

Lemma render_determines_phones_witness :
  (Record.name john = Record.name john
   ∧ Forall (λ p, ten_digits (Phone.value p)) (Record.phones john)
   ∧ Forall (λ p, ten_digits (Phone.value p)) (Record.phones john)
   ∧ Record.render john = Record.render john)
  ∧ john = john.
Proof.
  assert (H1 : Forall (λ p, ten_digits (Phone.value p)) (Record.phones john))
    by compute_done.
  split; [split; [reflexivity|split; [exact H1|split; [exact H1|reflexivity]]]|].
  exact (render_determines_phones john john eq_refl H1 H1 eq_refl).
Defined.

(** ** More on the book *)

Section dict_order_facts.
Context {K V : Type} `{EqDecision K}.
Implicit Types (d : dict K V) (k : K) (v : V).

Lemma replace_absent d k v :
  k ∉ keys d → (λ kv, if decide (kv.1 = k) then (kv.1, v) else kv) <$> d = d.
Proof.
  unfold keys. induction d as [|[k' v'] d IH]; intros Hout; [reflexivity|].
  cbn in Hout. apply not_elem_of_cons in Hout as [Hk Hout].
  cbn. destruct (decide (k' = k)); [congruence|]. rewrite IH by exact Hout.
  reflexivity.
Qed.

Lemma setitem_present d k v :
  dict_wf d → k ∈ keys d →
  setitem d k v = (λ kv, if decide (kv.1 = k) then (kv.1, v) else kv) <$> d.
Proof.
  unfold dict_wf, keys. induction d as [|[k' v'] d IH]; intros Hwf Hin.
  - apply elem_of_nil in Hin. contradiction.
  - cbn in Hwf, Hin. apply NoDup_cons in Hwf as [Hk' Hwf]. cbn.
    destruct (decide (k' = k)) as [->|Hk].
    + rewrite replace_absent by exact Hk'. reflexivity.
    + apply elem_of_cons in Hin as [->|Hin]; [contradiction|].
      rewrite IH by assumption. reflexivity.
Qed.

Lemma setitem_idem d k v : setitem (setitem d k v) k v = setitem d k v.
Proof.
  induction d as [|[k' v'] d IH]; cbn.
  - destruct (decide (k = k)); congruence.
  - destruct (decide (k' = k)) as [->|Hk]; cbn.
    + destruct (decide (k = k)); congruence.
    + destruct (decide (k' = k)); [contradiction|]. rewrite IH. reflexivity.
Qed.

Lemma pop_snoc_absent d k v : k ∉ keys d → (pop (d ++ [(k, v)]) k).2 = d.
Proof.
  unfold keys. induction d as [|[k' v'] d IH]; intros Hout; cbn.
  - destruct (decide (k = k)); [reflexivity|congruence].
  - cbn in Hout. apply not_elem_of_cons in Hout as [Hk Hout].
    destruct (decide (k' = k)); [congruence|].
    specialize (IH Hout). destruct (pop (d ++ [(k, v)]) k) as [o d'].
    cbn in *. congruence.
Qed.

Lemma others_others_eq d k : others k (others k d) = others k d.
Proof.
  unfold others. rewrite list_filter_filter. apply list_filter_iff. intros kv. tauto.
Qed.

Lemma others_comm d k k0 : others k (others k0 d) = others k0 (others k d).
Proof.
  unfold others. rewrite !list_filter_filter. apply list_filter_iff. intros kv. tauto.
Qed.

Lemma keys_others_absent d k : k ∉ keys (others k d).
Proof. apply get_None, get_others_eq. Qed.

End dict_order_facts.

(** X16: [add_record] under a name that is a key keeps the place of the entry
    in the enumeration of the book and changes its record only; under a new
    name the entry goes to the end, and the rendering gets one more line, the
    last. *)
Theorem add_record_enumeration_order
  (h : heap) (b : AddressBook.t) (l : ref) (r : Record.t)
  (Hok : book_ok h b) (Hlive : h !! l = Some r) :
  ∃ b',
    AddressBook.add_record b l h = (Return b', h)
    ∧ (Name.value (Record.name r) ∈ keys (AddressBook.data b) →
       AddressBook.data b'
       = (λ kv, if decide (kv.1 = Name.value (Record.name r)) then (kv.1, l) else kv)
           <$> AddressBook.data b)
    ∧ (Name.value (Record.name r) ∉ keys (AddressBook.data b) →
       AddressBook.data b' = AddressBook.data b ++ [(Name.value (Record.name r), l)]
       ∧ AddressBook.__str__ b' h
         = (Return (join newline
                      ((line_of h <$> values (AddressBook.data b))
                       ++ [Record.render r])), h)).
Proof.
  eexists. split; [apply add_record_eq, Hlive|]. cbn [AddressBook.data].
  split; [apply setitem_present, Hok|].
  intros Hnew. split; [apply setitem_absent, Hnew|].
  rewrite book_str_eq by (apply book_ok_setitem; assumption).
  cbn [AddressBook.data]. rewrite setitem_absent by exact Hnew.
  unfold values. rewrite !fmap_app. cbn [fmap list_fmap snd].
  unfold line_of at 2. rewrite Hlive. reflexivity.
Qed.

Lemma add_record_enumeration_order_witness :
  (book_ok (<[2 := Record.mk (Name.__init__ (lit "John")) []]> demo_heap) demo_book
   ∧ <[2 := Record.mk (Name.__init__ (lit "John")) []]> demo_heap !! 2
     = Some (Record.mk (Name.__init__ (lit "John")) []))
  ∧ ∃ b',
      AddressBook.add_record demo_book 2
        (<[2 := Record.mk (Name.__init__ (lit "John")) []]> demo_heap)
      = (Return b', <[2 := Record.mk (Name.__init__ (lit "John")) []]> demo_heap)
      ∧ AddressBook.data b' = [(lit "John", 2); (lit "Jane", 1)].
Proof.
  assert (H1 : book_ok (<[2 := Record.mk (Name.__init__ (lit "John")) []]> demo_heap)
                 demo_book) by compute_done.
  split; [split; [exact H1|reflexivity]|].
  destruct (add_record_enumeration_order _ demo_book 2 _ H1 eq_refl)
    as (b' & Hadd & Hpresent & _).
  exists b'. split; [exact Hadd|].
  rewrite Hpresent; [reflexivity|compute_done].
Defined.

(** X17: adding a record under a name the book does not have and then
    deleting that name gives the book there was before. *)
Theorem add_record_then_delete
  (h : heap) (b : AddressBook.t) (l : ref) (r : Record.t)
  (Hlive : h !! l = Some r)
  (Hnew : Name.value (Record.name r) ∉ keys (AddressBook.data b)) :
  ∃ b',
    AddressBook.add_record b l h = (Return b', h)
    ∧ AddressBook.delete b' (Name.value (Record.name r)) = b.
Proof.
  eexists. split; [apply add_record_eq, Hlive|].
  unfold AddressBook.delete. cbn [AddressBook.data].
  rewrite setitem_absent by exact Hnew. rewrite pop_snoc_absent by exact Hnew.
  destruct b; reflexivity.
Qed.

Lemma add_record_then_delete_witness :
  (demo_heap !! 1 = Some jane
   ∧ Name.value (Record.name jane)
     ∉ keys (AddressBook.data (AddressBook.mk [(lit "John", 0)])))
  ∧ ∃ b',
      AddressBook.add_record (AddressBook.mk [(lit "John", 0)]) 1 demo_heap
      = (Return b', demo_heap)
      ∧ AddressBook.delete b' (Name.value (Record.name jane))
        = AddressBook.mk [(lit "John", 0)].
Proof.
  assert (H2 : Name.value (Record.name jane)
               ∉ keys (AddressBook.data (AddressBook.mk [(lit "John", 0)])))
    by compute_done.
  split; [split; [reflexivity|exact H2]|].
  exact (add_record_then_delete demo_heap (AddressBook.mk [(lit "John", 0)]) 1 jane
           eq_refl H2).
Defined.

(** X18: adding the same record a second time changes nothing. *)
Theorem add_record_idempotent
  (h : heap) (b : AddressBook.t) (l : ref) (r : Record.t)
  (Hlive : h !! l = Some r) :
  ∃ b',
    AddressBook.add_record b l h = (Return b', h)
    ∧ AddressBook.add_record b' l h = (Return b', h).
Proof.
  eexists. split; [apply add_record_eq, Hlive|].
  rewrite (add_record_eq _ l r h Hlive). cbn [AddressBook.data].
  rewrite setitem_idem. reflexivity.
Qed.

Lemma add_record_idempotent_witness :
  demo_heap !! 0 = Some john
  ∧ ∃ b',
      AddressBook.add_record demo_book 0 demo_heap = (Return b', demo_heap)
      ∧ AddressBook.add_record b' 0 demo_heap = (Return b', demo_heap).
Proof.
  split; [reflexivity|].
  exact (add_record_idempotent demo_heap demo_book 0 john eq_refl).
Defined.

(** X19: deleting a name twice is deleting it once, and two deletions give
    the same book in either order. *)
Theorem delete_idempotent_commutes
  (b : AddressBook.t) (name other : str)
  (Hwf : dict_wf (AddressBook.data b)) :
  AddressBook.delete (AddressBook.delete b name) name = AddressBook.delete b name
  ∧ AddressBook.delete (AddressBook.delete b name) other
    = AddressBook.delete (AddressBook.delete b other) name.
Proof.
  rewrite !(delete_eq b) by exact Hwf.
  rewrite !delete_eq by (apply dict_wf_others, Hwf). cbn [AddressBook.data].
  rewrite others_others_eq, (others_comm _ other name). split; reflexivity.
Qed.

Lemma delete_idempotent_commutes_witness :
  dict_wf (AddressBook.data demo_book)
  ∧ AddressBook.delete (AddressBook.delete demo_book (lit "Jane")) (lit "Jane")
    = AddressBook.delete demo_book (lit "Jane")
  ∧ AddressBook.delete (AddressBook.delete demo_book (lit "Jane")) (lit "John")
    = AddressBook.delete (AddressBook.delete demo_book (lit "John")) (lit "Jane").
Proof.
  assert (H1 : dict_wf (AddressBook.data demo_book)) by compute_done.
  split; [exact H1|].
  exact (delete_idempotent_commutes demo_book (lit "Jane") (lit "John") H1).
Defined.

(** X20: deleting a name and adding a record of that name puts the entry at
    the end of the enumeration, whereas [add_record] alone would have kept
    its place. *)
Theorem delete_then_add_record_goes_last
  (h : heap) (b : AddressBook.t) (l : ref) (r : Record.t)
  (Hwf : dict_wf (AddressBook.data b)) (Hlive : h !! l = Some r) :
  AddressBook.add_record
    (AddressBook.delete b (Name.value (Record.name r))) l h
  = (Return (AddressBook.mk
               (others (Name.value (Record.name r)) (AddressBook.data b)
                ++ [(Name.value (Record.name r), l)])), h).
Proof.
  rewrite delete_eq by exact Hwf.
  rewrite (add_record_eq _ l r h Hlive). cbn [AddressBook.data].
  rewrite setitem_absent by apply keys_others_absent. reflexivity.
Qed.

Lemma delete_then_add_record_goes_last_witness :
  (dict_wf (AddressBook.data demo_book) ∧ demo_heap !! 0 = Some john)
  ∧ AddressBook.add_record
      (AddressBook.delete demo_book (Name.value (Record.name john))) 0 demo_heap
    = (Return (AddressBook.mk
                 (others (Name.value (Record.name john)) (AddressBook.data demo_book)
                  ++ [(Name.value (Record.name john), 0)])), demo_heap).
Proof.
  assert (H1 : dict_wf (AddressBook.data demo_book)) by compute_done.
  split; [split; [exact H1|reflexivity]|].
  exact (delete_then_add_record_goes_last demo_heap demo_book 0 john H1 eq_refl).
Defined.
